(** * bandcamp-downloader: a shallow embedding of [bandcamp-downloader.py]

    The script enumerates the album download pages of a Bandcamp user,
    resolves each page to a direct file URL for the configured format and
    streams the file to [OUTPUT_DIR/artist/filename].

    Modelling conventions.
    - A Python [str] is a Rocq [string] holding its UTF-8 bytes.
    - A Python [int] is a [Z]; a verbosity count is a [nat].
    - A value produced by [json.loads] is a [json]; an object keeps the
      pairs of the document and is read through [dict_of_pairs], which is
      how Python builds the [dict] (insertion order, last value wins).
      JSON numbers with a fraction are outside the model.
    - Code that can raise returns a [result]; the state reached when the
      exception is raised is kept, since nothing is rolled back.
    - The mutable world is the file system (a flat map from the path of
      each regular file to its contents) and the trace of what the script
      did to the outside: lines printed, progress-bar calls, HTTP
      requests, files opened for writing.  The server is a fixed function
      of the request.
    - A directory exists where a regular file lies below it and where the
      host has one of its own (possibly empty).  [os.makedirs] leaves no
      mark in the map: the directories it makes get their file next, or
      the write fails, and a directory made for a write that fails is
      not remembered.  Paths are compared as they are spelled; links,
      permissions and a full disk are outside the model. *)

From Stdlib Require Import ZArith List Bool Ascii String Lia Permutation.
From stdpp Require Import gmap strings list fin_maps.

Import ListNotations.
Local Open Scope string_scope.
Local Open Scope Z_scope.
Set Warnings "-register-all".

(** ** Constants of the script *)

Definition USER_URL (user : string) : string :=
  "https://bandcamp.com/" ++ user.

Definition COLLECTION_POST_URL : string :=
  "https://bandcamp.com/api/fancollection/1/collection_items".

Definition MAX_THREADS : Z := 32.
Definition DEFAULT_THREADS : Z := 5.

Definition SUPPORTED_FILE_FORMATS : list string :=
  [ "aac-hi"; "aiff-lossless"; "alac"; "flac";
    "mp3-320"; "mp3-v0"; "vorbis"; "wav" ].

Definition SUPPORTED_BROWSERS : list string :=
  [ "firefox"; "chrome"; "chromium"; "brave"; "opera"; "edge" ].

(** ** Python values *)

Module Py.

(** Exceptions the modelled code can raise. *)
Inductive exn : Type :=
| KeyError
| IndexError
| TypeError
| AttributeError
| ValueError
| JSONDecodeError
| HTTPError
| RequestException
| StreamError
| FileNotFoundError
| FileExistsError
| NotADirectoryError
| IsADirectoryError
| UnknownBrowser.

Inductive json : Type :=
| JNull
| JBool (b : bool)
| JNum (n : Z)
| JStr (s : string)
| JArr (items : list json)
| JObj (pairs : list (string * json)).

(** A [dict] with [str] keys, in insertion order. *)
Definition dict (V : Type) : Type := list (string * V).

Fixpoint dict_set {V} (k : string) (v : V) (d : dict V) : dict V :=
  match d with
  | [] => [(k, v)]
  | (k', v') :: d' =>
      if String.eqb k k' then (k, v) :: d' else (k', v') :: dict_set k v d'
  end.

Fixpoint dict_get {V} (k : string) (d : dict V) : option V :=
  match d with
  | [] => None
  | (k', v) :: d' => if String.eqb k k' then Some v else dict_get k d'
  end.

Definition dict_of_pairs {V} (kvs : list (string * V)) : dict V :=
  fold_left (fun d kv => dict_set (fst kv) (snd kv) d) kvs [].

Definition dict_values {V} (d : dict V) : list V := map snd d.

(** [x[k]] for a [str] key [k]. *)
Definition getitem (x : json) (k : string) : exn + json :=
  match x with
  | JObj kvs =>
      match dict_get k (dict_of_pairs kvs) with
      | Some v => inr v
      | None => inl KeyError
      end
  | _ => inl TypeError
  end.

(** [x[0]].  The first character of a [str] is returned as its first
    byte; every use in the script subscripts the result with a [str]
    key next, which is a [TypeError] on any [str]. *)
Definition getitem0 (x : json) : exn + json :=
  match x with
  | JArr [] => inl IndexError
  | JArr (v :: _) => inr v
  | JStr EmptyString => inl IndexError
  | JStr (String c _) => inr (JStr (String c EmptyString))
  | JObj _ => inl KeyError
  | _ => inl TypeError
  end.

(** [x.values()]. *)
Definition values (x : json) : exn + list json :=
  match x with
  | JObj kvs => inr (dict_values (dict_of_pairs kvs))
  | _ => inl AttributeError
  end.

Fixpoint prefixb (p s : string) : bool :=
  match p, s with
  | EmptyString, _ => true
  | String a p', String b s' => Ascii.eqb a b && prefixb p' s'
  | String _ _, EmptyString => false
  end.

Fixpoint substringb (p s : string) : bool :=
  prefixb p s ||
  match s with
  | EmptyString => false
  | String _ s' => substringb p s'
  end.

Definition is_str (k : string) (x : json) : bool :=
  match x with
  | JStr s => String.eqb s k
  | _ => false
  end.

(** [k in x] for a [str] [k]: key membership in a dict, element
    membership in a list, substring test in a str. *)
Definition contains (k : string) (x : json) : exn + bool :=
  match x with
  | JObj kvs =>
      inr (match dict_get k (dict_of_pairs kvs) with
           | Some _ => true
           | None => false
           end)
  | JArr items => inr (existsb (is_str k) items)
  | JStr s => inr (substringb k s)
  | _ => inl TypeError
  end.

(** [x - n] for an [int] [n]; [bool] is a subclass of [int]. *)
Definition sub_int (x : json) (n : Z) : exn + json :=
  match x with
  | JNum m => inr (JNum (m - n))
  | JBool b => inr (JNum ((if b then 1 else 0) - n))
  | _ => inl TypeError
  end.

(** Truth value of [links] in [if not links]. *)
Definition truthy_links (links : option (list json)) : bool :=
  match links with
  | None => false
  | Some [] => false
  | Some (_ :: _) => true
  end.

End Py.

Import Py.

(** ** The collection state kept in [user_info] *)

Record user_info : Type := mk_user_info {
  collection_count : json;
  user_id : json;
  last_token : json;
  download_urls : list json;
}.

(** [generate_collection_post_payload]: the dict literal is evaluated in
    source order; only the subtraction can raise. *)
Definition generate_collection_post_payload (ui : user_info)
  : exn + dict json :=
  match sub_int (collection_count ui) (Z.of_nat (length (download_urls ui))) with
  | inl e => inl e
  | inr count =>
      inr [ ("fan_id", user_id ui);
            ("count", count);
            ("older_than_token", last_token ui) ]
  end.

(** ** String helpers of the standard library used by [download_file] *)

Module Text.

Definition NEWLINE : ascii := "010"%char.

Fixpoint drop_prefix (p s : string) : option string :=
  match p, s with
  | EmptyString, _ => Some s
  | String a p', String b s' =>
      if Ascii.eqb a b then drop_prefix p' s' else None
  | String _ _, EmptyString => None
  end.

(** What the capture group takes: everything up to the end of the line. *)
Fixpoint until_newline (s : string) : string :=
  match s with
  | EmptyString => EmptyString
  | String c s' =>
      if Ascii.eqb c NEWLINE then EmptyString else String c (until_newline s')
  end.

(** [re.search] of a literal [lit] followed by a group capturing the
    rest of the line: the leftmost occurrence of the literal wins; the
    result is group 1. *)
Fixpoint search_literal_rest (lit h : string) : option string :=
  match drop_prefix lit h with
  | Some rest => Some (until_newline rest)
  | None =>
      match h with
      | EmptyString => None
      | String _ h' => search_literal_rest lit h'
      end
  end.

(** [s.split(sep)] for a one-character separator. *)
Fixpoint split (sep : ascii) (s : string) : list string :=
  match s with
  | EmptyString => [EmptyString]
  | String c s' =>
      if Ascii.eqb c sep then EmptyString :: split sep s'
      else match split sep s' with
           | [] => [String c EmptyString]
           | seg :: segs => String c seg :: segs
           end
  end.

Definition hex_value (c : ascii) : option N :=
  let n := N_of_ascii c in
  if (48 <=? n)%N && (n <=? 57)%N then Some (n - 48)%N
  else if (65 <=? n)%N && (n <=? 70)%N then Some (n - 55)%N
  else if (97 <=? n)%N && (n <=? 102)%N then Some (n - 87)%N
  else None.

(** [urllib.parse.unquote]: [%XX] with two hexadecimal digits becomes the
    byte [XX]; any other [%] stays.  The decoded bytes are then read as
    UTF-8, which is the identity on this representation of [str] when the
    bytes are well-formed UTF-8. *)
Fixpoint unquote (s : string) : string :=
  match s with
  | EmptyString => EmptyString
  | String c s' =>
      let keep := String c (unquote s') in
      if Ascii.eqb c "%" then
        match s' with
        | String a (String b rest) =>
            match hex_value a, hex_value b with
            | Some x, Some y =>
                String (ascii_of_N (16 * x + y)) (unquote rest)
            | _, _ => keep
            end
        | _ => keep
        end
      else keep
  end.

Definition ends_with (c : ascii) (s : string) : bool :=
  match String.rev s with
  | String d _ => Ascii.eqb c d
  | EmptyString => false
  end.

(** One step of [posixpath.join]: an absolute component (or an empty
    path so far) replaces the path, otherwise it is appended after a
    single separator. *)
Definition join_step (path b : string) : string :=
  if prefixb "/" b || String.eqb path "" then b
  else if ends_with "/" path then path ++ b
  else path ++ "/" ++ b.

Definition path_join (a : string) (p : list string) : string :=
  fold_left join_step p a.

Fixpoint has_slash (s : string) : bool :=
  match s with
  | EmptyString => false
  | String c s' => Ascii.eqb c "/" || has_slash s'
  end.

(** [p[:p.rfind('/') + 1]]: the path up to its last separator. *)
Fixpoint head_part (p : string) : string :=
  match p with
  | EmptyString => EmptyString
  | String c p' => if has_slash p then String c (head_part p') else EmptyString
  end.

Fixpoint all_slashes (s : string) : bool :=
  match s with
  | EmptyString => true
  | String c s' => Ascii.eqb c "/" && all_slashes s'
  end.

Fixpoint lstrip_slash (s : string) : string :=
  match s with
  | EmptyString => EmptyString
  | String c s' => if Ascii.eqb c "/" then lstrip_slash s' else s
  end.

(** [s.rstrip('/')]. *)
Definition rstrip_slash (s : string) : string :=
  String.rev (lstrip_slash (String.rev s)).

(** [posixpath.dirname]: the head of the path, without its trailing
    separators unless it consists of separators only. *)
Definition dirname (p : string) : string :=
  let head := head_part p in
  if negb (String.eqb head "") && negb (all_slashes head)
  then rstrip_slash head
  else head.

Definition is_space (c : ascii) : bool :=
  let n := N_of_ascii c in
  (n =? 32)%N || ((9 <=? n)%N && (n <=? 13)%N).

Fixpoint lstrip (s : string) : string :=
  match s with
  | EmptyString => EmptyString
  | String c s' => if is_space c then lstrip s' else s
  end.

Definition strip (s : string) : string :=
  String.rev (lstrip (String.rev (lstrip s))).

Definition digit_value (c : ascii) : option Z :=
  let n := N_of_ascii c in
  if (48 <=? n)%N && (n <=? 57)%N then Some (Z.of_N (n - 48)) else None.

(** Decimal digits, single underscores allowed between two digits. *)
Fixpoint int_digits (s : string) (acc : Z) (after_digit : bool) : option Z :=
  match s with
  | EmptyString => if after_digit then Some acc else None
  | String c s' =>
      if Ascii.eqb c "_" then
        if after_digit then int_digits s' acc false else None
      else
        match digit_value c with
        | Some d => int_digits s' (10 * acc + d) true
        | None => None
        end
  end.

(** [int(s)] for a [str] in base ten (ASCII digits and white space). *)
Definition int_of_str (s : string) : option Z :=
  match strip s with
  | String "+" body => int_digits body 0 false
  | String "-" body => option_map Z.opp (int_digits body 0 false)
  | body => int_digits body 0 false
  end.

Definition lower_char (c : ascii) : ascii :=
  let n := N_of_ascii c in
  if (65 <=? n)%N && (n <=? 90)%N then ascii_of_N (n + 32) else c.

Fixpoint lower (s : string) : string :=
  match s with
  | EmptyString => EmptyString
  | String c s' => String (lower_char c) (lower s')
  end.

End Text.

Import Text.

(** ** HTTP: the server as seen through [requests] *)

Definition headers : Type := list (string * string).

(** Lookup in the case-insensitive header dict of a response. *)
Fixpoint header_get (name : string) (hs : headers) : option string :=
  match hs with
  | [] => None
  | (k, v) :: hs' =>
      if String.eqb (lower k) (lower name) then Some v else header_get name hs'
  end.

(** What the [div#pagedata] lookup and the decoding of its [data-blob]
    attribute find in the text of a page. *)
Inductive page : Type :=
| NoDiv
| NoBlob
| BadBlob
| Blob (data : json).

Inductive cookiejar : Type :=
| Jar (browser : string).

Record post_response : Type := mk_post_response {
  post_status : Z;
  post_text : option json;
}.

Record file_response : Type := mk_file_response {
  file_status : Z;
  file_headers : headers;
  file_chunks : list string;
  file_stream_ok : bool;
}.

(** What the machine of the user holds besides regular files: the
    directories that exist of their own, empty or not, and the size
    [os.stat] reports for a directory.  Both are asked with the path
    stripped of trailing separators. *)
Record host : Type := mk_host {
  dir_exists : string -> bool;
  dir_size : string -> Z;
}.

(** Everything outside the script that stays the same during a run.
    [None] stands for a request that raises instead of answering. *)
Record server : Type := mk_server {
  serve_page : cookiejar -> string -> option page;
  serve_post : cookiejar -> string -> json -> option post_response;
  serve_file : cookiejar -> string -> option file_response;
  machine : host;
}.

(** [response.raise_for_status()] raises on 4xx and 5xx. *)
Definition status_raises (status : Z) : bool :=
  (400 <=? status) && (status <? 600).

(** ** Configuration, console and progress bar *)

(** The parsed command line. *)
Record args : Type := mk_args {
  username : string;
  browser : string;
  directory : string;
  format : string;
  parallel_downloads : Z;
  force : bool;
  verbose : nat;
}.

(** The [CONFIG] dict once [main] has filled it; the progress bar kept
    under [TQDM] is part of the world. *)
Record config : Type := mk_config {
  VERBOSE : nat;
  OUTPUT_DIR : string;
  BROWSER : string;
  FORMAT : string;
  FORCE : bool;
}.

(** One constructor per message template of the script, carrying the
    values formatted into it. *)
Inductive message : Type :=
| MsgArgs (a : args)
| MsgForceFlag
| MsgRetrieving (user : string)
| MsgFound (n : nat) (user : string)
| MsgNoLinks (user : string)
| MsgStarting
| MsgDone
| MsgNoPagedataUser (url : string)
| MsgNoPagedataAlbum (url : json)
| MsgNoFormat (album : json) (url : json) (fmt : string)
| MsgOverwriting (path : string)
| MsgSkipping (path : string)
| MsgWrongSize (path : string) (expected actual : Z)
| MsgSaving (path : string).

(** Everything the script does to the outside, in the order it happens. *)
Inductive event : Type :=
| Print (m : message)
| TqdmOpen (total : nat)
| TqdmWrite (m : message)
| TqdmUpdate
| TqdmClose
| HttpGetPage (jar : cookiejar) (url : string)
| HttpPost (jar : cookiejar) (url : string) (body : json)
| HttpGetFile (jar : cookiejar) (url : string)
| OpenWrite (path : string).

Record world : Type := mk_world {
  fs : gmap string string;
  trace : list event;
}.

(** ** Computations that change the world and may raise *)

Inductive result (A : Type) : Type :=
| Ok (a : A) (w : world)
| Raise (e : exn) (w : world).

Arguments Ok {A} a w.
Arguments Raise {A} e w.

Definition M (A : Type) : Type := world -> result A.

Definition ret {A} (a : A) : M A := fun w => Ok a w.

Definition raise {A} (e : exn) : M A := fun w => Raise e w.

Definition bind {A B} (m : M A) (k : A -> M B) : M B :=
  fun w =>
    match m w with
    | Ok a w' => k a w'
    | Raise e w' => Raise e w'
    end.

Declare Scope py_scope.
Delimit Scope py_scope with py.
Notation "x <- m ;; k" := (bind m (fun x => k))
  (at level 100, m at next level, right associativity) : py_scope.
Notation "m ;; k" := (bind m (fun _ => k))
  (at level 100, right associativity) : py_scope.
Local Open Scope py_scope.

Definition lift {A} (r : exn + A) : M A :=
  match r with
  | inl e => raise e
  | inr a => ret a
  end.

Definition emit (e : event) : M unit :=
  fun w => Ok tt (mk_world (fs w) (trace w ++ [e])).

Definition when (b : bool) (m : M unit) : M unit :=
  if b then m else ret tt.

Definition final_world {A} (r : result A) : world :=
  match r with
  | Ok _ w => w
  | Raise _ w => w
  end.

(** ** The file system as the script meets it *)

(** [p] lies below the directory [d]. *)
Definition below (d p : string) : bool :=
  prefixb (rstrip_slash d ++ "/") p.

Definition is_file (files : gmap string string) (p : string) : bool :=
  match files !! p with
  | Some _ => true
  | None => false
  end.

(** Some regular file lies below [d]. *)
Definition has_entry_below (files : gmap string string) (d : string) : bool :=
  existsb (fun kv => below d (fst kv)) (map_to_list files).

(** Some regular file stands where [p] needs a directory: at a proper
    ancestor of [p]. *)
Definition file_above (files : gmap string string) (p : string) : bool :=
  existsb (fun kv => below (fst kv) p) (map_to_list files).

(** [os.path.isdir]: the root, a directory of the host, or a directory
    that holds a file. *)
Definition is_dir (h : host) (files : gmap string string) (p : string) : bool :=
  negb (String.eqb p "")
  && (all_slashes p || dir_exists h (rstrip_slash p) || has_entry_below files p).

(** [os.makedirs(d, exist_ok=True)]: the empty path names nothing; a
    regular file at an ancestor or at [d] itself is in the way; otherwise
    the missing directories are made. *)
Definition makedirs_error (files : gmap string string) (d : string)
  : option exn :=
  if String.eqb d "" then Some FileNotFoundError
  else if file_above files d then Some NotADirectoryError
  else if is_file files d then Some FileExistsError
  else None.

(** [open(p, 'wb')] once the directories are made: a path that names a
    directory cannot be opened for writing. *)
Definition open_error (h : host) (files : gmap string string) (p : string)
  : option exn :=
  if String.eqb p "" then Some FileNotFoundError
  else if file_above files p then Some NotADirectoryError
  else if ends_with "/" p || is_dir h files p then Some IsADirectoryError
  else None.

(** [os.path.exists]. *)
Definition path_exists (h : host) (path : string) : M bool :=
  fun w => Ok (is_file (fs w) path || is_dir h (fs w) path) w.

(** [os.stat(path).st_size]. *)
Definition stat_size (h : host) (path : string) : M Z :=
  fun w =>
    match fs w !! path with
    | Some content => Ok (Z.of_nat (String.length content)) w
    | None =>
        if is_dir h (fs w) path then Ok (dir_size h (rstrip_slash path)) w
        else Raise FileNotFoundError w
    end.

(** [os.makedirs(path, exist_ok=True)]; the directories made are not
    recorded. *)
Definition makedirs (path : string) : M unit :=
  fun w =>
    match makedirs_error (fs w) path with
    | Some e => Raise e w
    | None => Ok tt w
    end.

(** [open(path, 'wb')] and the writes of the whole content. *)
Definition write_file (h : host) (path content : string) : M unit :=
  fun w =>
    match open_error h (fs w) path with
    | Some e => Raise e w
    | None =>
        Ok tt (mk_world (<[path := content]> (fs w))
                 (trace w ++ [OpenWrite path]))
    end.

(** ** The functions of the script *)

Section Script.

Variable srv : server.
Variable cfg : config.

Definition get_cookies : exn + cookiejar :=
  if String.eqb (BROWSER cfg) "firefox" then inr (Jar "firefox")
  else if String.eqb (BROWSER cfg) "chrome" then inr (Jar "chrome")
  else if String.eqb (BROWSER cfg) "brave" then inr (Jar "brave")
  else if String.eqb (BROWSER cfg) "edge" then inr (Jar "edge")
  else if String.eqb (BROWSER cfg) "chromium" then inr (Jar "chromium")
  else if String.eqb (BROWSER cfg) "opera" then inr (Jar "opera")
  else inl UnknownBrowser.

(** [requests.get(url, cookies = get_cookies()).text] parsed for the
    page-data element.  A URL that is not a [str] is refused by
    [requests] before anything is sent. *)
Definition get_page (url : json) : M page :=
  jar <- lift get_cookies ;;
  match url with
  | JStr u =>
      emit (HttpGetPage jar u) ;;
      match serve_page srv jar u with
      | Some p => ret p
      | None => raise RequestException
      end
  | _ => raise RequestException
  end.

(** The decoded [data-blob] of a page whose element was found. *)
Definition blob_json (p : page) : exn + json :=
  match p with
  | Blob data => inr data
  | BadBlob => inl JSONDecodeError
  | NoBlob | NoDiv => inl TypeError
  end.

Definition get_user_collection (ui : user_info) : M user_info :=
  payload <- lift (generate_collection_post_payload ui) ;;
  jar <- lift get_cookies ;;
  emit (HttpPost jar COLLECTION_POST_URL (JObj payload)) ;;
  match serve_post srv jar COLLECTION_POST_URL (JObj payload) with
  | None => raise RequestException
  | Some response =>
      when (status_raises (post_status response)) (raise HTTPError) ;;
      data <- lift (match post_text response with
                    | Some j => inr j
                    | None => inl JSONDecodeError
                    end) ;;
      urls <- lift (getitem data "redownload_urls") ;;
      new_urls <- lift (values urls) ;;
      ret (mk_user_info (collection_count ui) (user_id ui) (last_token ui)
             (download_urls ui ++ new_urls))
  end.

Definition get_download_links_for_user (user : string)
  : M (option (list json)) :=
  emit (Print (MsgRetrieving user)) ;;
  p <- get_page (JStr (USER_URL user)) ;;
  match p with
  | NoDiv =>
      emit (Print (MsgNoPagedataUser (USER_URL user))) ;;
      ret None
  | _ =>
      data <- lift (blob_json p) ;;
      count <- lift (getitem data "collection_count") ;;
      fan_data <- lift (getitem data "fan_data") ;;
      fan_id <- lift (getitem fan_data "fan_id") ;;
      collection_data <- lift (getitem data "collection_data") ;;
      token <- lift (getitem collection_data "last_token") ;;
      collection_data' <- lift (getitem data "collection_data") ;;
      urls <- lift (getitem collection_data' "redownload_urls") ;;
      first_urls <- lift (values urls) ;;
      ui <- get_user_collection (mk_user_info count fan_id token first_urls) ;;
      ret (Some (download_urls ui))
  end.

Definition FILENAME_REGEX_search (h : string) : option string :=
  search_literal_rest "filename*=UTF-8''" h.

(** The [filename] computed by [download_file] from the URL and the
    value of the [content-disposition] header. *)
Definition target_filename (url disposition : string) : string :=
  match FILENAME_REGEX_search disposition with
  | Some group1 => unquote group1
  | None => List.last (split "/" url) EmptyString
  end.

Definition file_body (response : file_response) : string :=
  String.concat "" (file_chunks response).

(** [int(response.headers['content-length'])]. *)
Definition content_length (response : file_response) : exn + Z :=
  match header_get "content-length" (file_headers response) with
  | None => inl KeyError
  | Some h =>
      match int_of_str h with
      | Some n => inr n
      | None => inl ValueError
      end
  end.

(** The end of [download_file]: create the directories, write the chunks
    of the body in order, then advance the progress bar. *)
Definition save (response : file_response) (file_path : string) : M unit :=
  when (2 <=? VERBOSE cfg)%nat (emit (TqdmWrite (MsgSaving file_path))) ;;
  makedirs (dirname file_path) ;;
  write_file (machine srv) file_path (file_body response) ;;
  when (negb (file_stream_ok response)) (raise StreamError) ;;
  emit TqdmUpdate.

(** [download_file] from the test for an existing file onwards. *)
Definition store (response : file_response) (file_path : string) : M unit :=
  exists_ <- path_exists (machine srv) file_path ;;
  if exists_ then
    if FORCE cfg then
      when (1 <=? VERBOSE cfg)%nat
           (emit (TqdmWrite (MsgOverwriting file_path))) ;;
      save response file_path
    else
      expected_size <- lift (content_length response) ;;
      actual_size <- stat_size (machine srv) file_path ;;
      if expected_size =? actual_size then
        when (3 <=? VERBOSE cfg)%nat
             (emit (TqdmWrite (MsgSkipping file_path))) ;;
        emit TqdmUpdate
      else
        when (2 <=? VERBOSE cfg)%nat
             (emit (TqdmWrite (MsgWrongSize file_path expected_size actual_size))) ;;
        save response file_path
  else save response file_path.

Definition download_file (_url _to : json) : M unit :=
  jar <- lift get_cookies ;;
  match _url with
  | JStr url =>
      emit (HttpGetFile jar url) ;;
      match serve_file srv jar url with
      | None => raise RequestException
      | Some response =>
          when (status_raises (file_status response)) (raise HTTPError) ;;
          disposition <- lift (match header_get "content-disposition"
                                       (file_headers response) with
                               | Some h => inr h
                               | None => inl KeyError
                               end) ;;
          let filename := target_filename url disposition in
          file_path <- lift (match _to with
                             | JStr to => inr (path_join (OUTPUT_DIR cfg) [to; filename])
                             | _ => inl TypeError
                             end) ;;
          store response file_path
      end
  | _ => raise RequestException
  end.

(** [data['download_items'][0][field]]. *)
Definition first_item_field (data : json) (field : string) : exn + json :=
  match getitem data "download_items" with
  | inl e => inl e
  | inr items =>
      match getitem0 items with
      | inl e => inl e
      | inr item => getitem item field
      end
  end.

Definition download_album (_album_url : json) : M unit :=
  p <- get_page _album_url ;;
  match p with
  | NoDiv =>
      emit (TqdmWrite (MsgNoPagedataAlbum _album_url)) ;;
      emit TqdmUpdate
  | _ =>
      data <- lift (blob_json p) ;;
      artist <- lift (first_item_field data "artist") ;;
      album <- lift (first_item_field data "title") ;;
      downloads <- lift (first_item_field data "downloads") ;;
      has_format <- lift (contains (FORMAT cfg) downloads) ;;
      if negb has_format then
        emit (TqdmWrite (MsgNoFormat album _album_url (FORMAT cfg))) ;;
        emit TqdmUpdate
      else
        downloads' <- lift (first_item_field data "downloads") ;;
        descriptor <- lift (getitem downloads' (FORMAT cfg)) ;;
        download_url <- lift (getitem descriptor "url") ;;
        download_file download_url artist
  end.

(** The sequential loop of [main]: the first exception ends it. *)
Fixpoint download_each (links : list json) : M unit :=
  match links with
  | [] => ret tt
  | link :: rest => download_album link ;; download_each rest
  end.

(** [executor.map(download_album, links)] followed by the shutdown of the
    pool: every submitted call runs; an exception stays in the future of
    its call, which nobody reads.  [order] is the order in which the
    calls happened to run, each taken as one step. *)
Fixpoint pool_map (order : list json) : M unit :=
  fun w =>
    match order with
    | [] => Ok tt w
    | link :: rest => pool_map rest (final_world (download_album link w))
    end.

End Script.

(** ** [main] and the exit status of the process *)

Definition config_of_args (a : args) : config :=
  mk_config (verbose a) (directory a) (browser a) (format a) (force a).

(** The [choices] that [parse_args] enforces. *)
Definition choices_ok (a : args) : bool :=
  existsb (String.eqb (browser a)) SUPPORTED_BROWSERS
  && existsb (String.eqb (format a)) SUPPORTED_FILE_FORMATS.

Definition EXIT_OK : Z := 0.
Definition EXIT_TRACEBACK : Z := 1.
Definition EXIT_USAGE : Z := 2.
Definition EXIT_NO_LINKS : Z := 2.

Section Main.

Variable srv : server.

(** How the worker pool orders the calls it is given. *)
Variable schedule : list json -> list json.

(** The body of [main] after the command line is accepted; its value is
    the argument of [sys.exit]. *)
Definition run (a : args) : M Z :=
  let cfg := config_of_args a in
  when (1 <=? VERBOSE cfg)%nat (emit (Print (MsgArgs a))) ;;
  when (FORCE cfg) (emit (Print MsgForceFlag)) ;;
  links <- get_download_links_for_user srv cfg (username a) ;;
  when (1 <=? VERBOSE cfg)%nat
       (match links with
        | Some l => emit (Print (MsgFound (length l) (username a)))
        | None => raise TypeError
        end) ;;
  if negb (truthy_links links) then
    emit (Print (MsgNoLinks (username a))) ;;
    ret EXIT_NO_LINKS
  else
    let l := default [] links in
    emit (Print MsgStarting) ;;
    emit (TqdmOpen (length l)) ;;
    (if 1 <? parallel_downloads a
     then pool_map srv cfg (schedule l)
     else download_each srv cfg l) ;;
    emit TqdmClose ;;
    emit (Print MsgDone) ;;
    ret EXIT_OK.

(** The exit status of the process and the world it leaves: a usage
    error of [argparse] exits with 2, an uncaught exception with 1. *)
Definition main (a : args) (w : world) : Z * world :=
  if negb (choices_ok a) then (EXIT_USAGE, w)
  else if (parallel_downloads a <? 1) || (MAX_THREADS <? parallel_downloads a)
  then (EXIT_USAGE, w)
  else
    match run a w with
    | Ok code w' => (code, w')
    | Raise _ w' => (EXIT_TRACEBACK, w')
    end.

End Main.

(** * Notions used in the statements *)

Local Open Scope list_scope.

(** ** Computations see the trace only to extend it *)

Definition prepend {A} (t : list event) (r : result A) : result A :=
  match r with
  | Ok a w => Ok a (mk_world (fs w) (t ++ trace w))
  | Raise e w => Raise e (mk_world (fs w) (t ++ trace w))
  end.

(** Running from a world is running from its file system with an empty
    trace and putting the old trace in front. *)
Definition local {A} (m : M A) : Prop :=
  forall w, m w = prepend (trace w) (m (mk_world (fs w) [])).

Definition value_of {A} (r : result A) : exn + A :=
  match r with
  | Ok a _ => inr a
  | Raise e _ => inl e
  end.

(** The events a run from [w] added to the trace. *)
Definition new_events {A} (m : M A) (w : world) : list event :=
  trace (final_world (m (mk_world (fs w) []))).

(** What a successful answer is: a status below 400 and a JSON text whose
    [redownload_urls] is an object with values [new]. *)
Definition answers (response : post_response) (new : list json) : Prop :=
  status_raises (post_status response) = false
  /\ exists data urls,
       post_text response = Some data
       /\ getitem data "redownload_urls" = inr urls
       /\ values urls = inr new.

(** What the blob of a profile page must hold for the enumeration to
    start: the four fields read from it. *)
Definition profile_fields (data : json) (ui : user_info) : Prop :=
  getitem data "collection_count" = inr (collection_count ui)
  /\ (exists fan_data,
        getitem data "fan_data" = inr fan_data
        /\ getitem fan_data "fan_id" = inr (user_id ui))
  /\ (exists collection_data urls,
        getitem data "collection_data" = inr collection_data
        /\ getitem collection_data "last_token" = inr (last_token ui)
        /\ getitem collection_data "redownload_urls" = inr urls
        /\ values urls = inr (download_urls ui)).

(** ** The specification's wording of the enumerator

    These two state what the specification promises of
    [get_download_links_for_user]; the script does not meet them. *)

(** On successful completion as many URLs are returned as the profile
    declares. *)
Definition enumeration_reaches_total : Prop :=
  forall srv cfg user jar data n w urls w',
    get_cookies cfg = inr jar ->
    serve_page srv jar (USER_URL user) = Some (Blob data) ->
    getitem data "collection_count" = inr (JNum n) ->
    get_download_links_for_user srv cfg user w = Ok (Some urls) w' ->
    Z.of_nat (length urls) = n.

(** The returned collection never holds a URL twice. *)
Definition collected_urls_never_repeat : Prop :=
  forall srv cfg user w urls w',
    get_download_links_for_user srv cfg user w = Ok (Some urls) w' ->
    NoDup urls.

(** ** What the file fetcher leaves behind *)

(** How [save] ends: normally, or with the error of the stream after the
    chunks received were written. *)
Definition stream_result (response : file_response) (w : world)
  : result unit :=
  if file_stream_ok response then Ok tt w else Raise StreamError w.

(** The events of [save]. *)
Definition save_events (cfg : config) (response : file_response)
    (path : string) : list event :=
  (if (2 <=? VERBOSE cfg)%nat then [TqdmWrite (MsgSaving path)] else [])
  ++ [OpenWrite path]
  ++ (if file_stream_ok response then [TqdmUpdate] else []).

(** The path [download_file] writes to for directory [to], given the URL
    and the value of the content-disposition header. *)
Definition destination (cfg : config) (url disposition to : string) : string :=
  path_join (OUTPUT_DIR cfg) [to; target_filename url disposition].

(** A world with further events. *)
Definition with_events (w : world) (t : list event) : world :=
  mk_world (fs w) (trace w ++ t).

(** ** Computations that do not look at the world *)

Definition pack {A} (v : exn + A) (w : world) : result A :=
  match v with
  | inl e => Raise e w
  | inr a => Ok a w
  end.

Definition is_write (e : event) : bool :=
  match e with
  | OpenWrite _ => true
  | _ => false
  end.

(** No file is opened for writing in [t]. *)
Definition writes_nothing (t : list event) : Prop :=
  existsb is_write t = false.

(** The same value and the same events from every world, the files
    neither read nor written. *)
Definition fileless {A} (m : M A) : Prop :=
  exists v t,
    writes_nothing t /\ forall w, m w = pack v (with_events w t).

(** What [run] does once the links are known. *)
Definition download_all (srv : server) (schedule : list json -> list json)
    (a : args) (links : list json) : M unit :=
  if 1 <? parallel_downloads a
  then pool_map srv (config_of_args a) (schedule links)
  else download_each srv (config_of_args a) links.

(** ** The specification's wording of the exit status *)

(** A profile page without the embedded payload ends the run with a
    status that is neither 0 nor the 2 of an empty collection. *)
Definition absent_payload_exit_is_distinct : Prop :=
  forall srv schedule a jar w,
    choices_ok a = true ->
    1 <= parallel_downloads a <= MAX_THREADS ->
    get_cookies (config_of_args a) = inr jar ->
    serve_page srv jar (USER_URL (username a)) = Some NoDiv ->
    fst (main srv schedule a w) <> EXIT_OK
    /\ fst (main srv schedule a w) <> EXIT_NO_LINKS.

(** ** What a write meets *)

(** The exception that [os.makedirs] or [open] raises when
    [download_file] goes on to write at [path], if any. *)
Definition write_error (srv : server) (files : gmap string string)
    (path : string) : option exn :=
  match makedirs_error files (dirname path) with
  | Some e => Some e
  | None => open_error (machine srv) files path
  end.

(** The value of [os.path.exists(path)]. *)
Definition exists_at (srv : server) (files : gmap string string)
    (path : string) : bool :=
  is_file files path || is_dir (machine srv) files path.

(** The value of [os.stat(path).st_size] where the path exists. *)
Definition size_at (srv : server) (files : gmap string string)
    (path : string) : Z :=
  match files !! path with
  | Some content => Z.of_nat (String.length content)
  | None => dir_size (machine srv) (rstrip_slash path)
  end.

(** ** Files of the declared size *)

(** The answer [response] may be stored at [path]: some file URL is
    answered by it with a success status and a content-disposition
    header, and some directory name sends it to [path]. *)
Definition lands (srv : server) (cfg : config) (response : file_response)
    (path : string) : Prop :=
  exists jar url d to,
    serve_file srv jar url = Some response
    /\ status_raises (file_status response) = false
    /\ header_get "content-disposition" (file_headers response) = Some d
    /\ path = destination cfg url d to.

(** Either no file is touched, or the computation is [store] of an
    answer of the server after events that depend on the server only. *)
Definition planned (srv : server) (cfg : config) (m : M unit) : Prop :=
  fileless m
  \/ exists response path t,
       lands srv cfg response path
       /\ writes_nothing t
       /\ forall w, m w = store srv cfg response path (with_events w t).

(** The answer that [download_file] gets for [url] and the path it
    stores it at, when the fetch gets that far: the URL and the
    directory name are of type [str], and the answer has a success status
    and a content-disposition header. *)
Definition file_plan (srv : server) (cfg : config) (url to : json)
  : option (file_response * string) :=
  match get_cookies cfg with
  | inl _ => None
  | inr jar =>
      match url with
      | JStr u =>
          match serve_file srv jar u with
          | None => None
          | Some response =>
              if status_raises (file_status response) then None
              else
                match header_get "content-disposition"
                        (file_headers response) with
                | None => None
                | Some d =>
                    match to with
                    | JStr dir => Some (response, destination cfg u d dir)
                    | _ => None
                    end
                end
          end
      | _ => None
      end
  end.

(** The file that [download_album] fetches for [link] and the path it
    stores it at, when the album gets that far: the page has a blob
    whose first item names an artist, a title and the configured format
    with a URL, and the fetch of that URL for that artist gets as far as
    storing the answer. *)
Definition fetch_plan (srv : server) (cfg : config) (link : json)
  : option (file_response * string) :=
  match get_cookies cfg with
  | inl _ => None
  | inr jar =>
      match link with
      | JStr u =>
          match serve_page srv jar u with
          | Some (Blob data) =>
              match first_item_field data "artist" with
              | inl _ => None
              | inr artist =>
                  match first_item_field data "title" with
                  | inl _ => None
                  | inr _ =>
                      match first_item_field data "downloads" with
                      | inl _ => None
                      | inr downloads =>
                          match contains (FORMAT cfg) downloads with
                          | inr true =>
                              match getitem downloads (FORMAT cfg) with
                              | inl _ => None
                              | inr descriptor =>
                                  match getitem descriptor "url" with
                                  | inl _ => None
                                  | inr url => file_plan srv cfg url artist
                                  end
                              end
                          | _ => None
                          end
                      end
                  end
              end
          | _ => None
          end
      | _ => None
      end
  end.

(** The computation is [store] of the planned answer after events that
    depend on the server only; without a plan it touches no file. *)
Definition ends_as (srv : server) (cfg : config)
    (plan : option (file_response * string)) (m : M unit) : Prop :=
  match plan with
  | Some (response, path) =>
      exists t,
        writes_nothing t
        /\ forall w, m w = store srv cfg response path (with_events w t)
  | None => fileless m
  end.

(** The albums a run from [w] hands to [download_album]. *)
Definition work (srv : server) (schedule : list json -> list json)
    (a : args) (w : world) : list json :=
  match value_of (get_download_links_for_user srv (config_of_args a)
                    (username a) w) with
  | inr (Some links) =>
      if 1 <? parallel_downloads a then schedule links else links
  | _ => []
  end.

(** A run from [w] fetches [response] for [path]. *)
Definition fetched (srv : server) (schedule : list json -> list json)
    (a : args) (w : world) (response : file_response) (path : string)
  : Prop :=
  exists link,
    In link (work srv schedule a w)
    /\ fetch_plan srv (config_of_args a) link = Some (response, path).

(** The answer declares the length of the body it delivers. *)
Definition declares_its_length (response : file_response) : Prop :=
  content_length response
  = inr (Z.of_nat (String.length (file_body response))).

(** [store] finds something of the declared size at [path]. *)
Definition skips (srv : server) (response : file_response)
    (files : gmap string string) (path : string) : Prop :=
  exists_at srv files path = true
  /\ content_length response = inr (size_at srv files path).

(** [store] will not write at [path]: it skips, or the write is
    refused. *)
Definition quiet (srv : server) (response : file_response)
    (files : gmap string string) (path : string) : Prop :=
  skips srv response files path \/ write_error srv files path <> None.

(** On [files], [store] skips what [link] fetches. *)
Definition done (srv : server) (cfg : config) (files : gmap string string)
    (link : json) : Prop :=
  forall response path,
    fetch_plan srv cfg link = Some (response, path) ->
    skips srv response files path.

(** On [files], [store] will not write what [link] fetches. *)
Definition settled (srv : server) (cfg : config)
    (files : gmap string string) (link : json) : Prop :=
  forall response path,
    fetch_plan srv cfg link = Some (response, path) ->
    quiet srv response files path.

(** The statement of the claim on force, as the specification words it:
    a fetch with force set always opens a file for writing. *)
Definition forced_fetch_always_writes : Prop :=
  forall srv cfg jar url to response w,
    FORCE cfg = true ->
    get_cookies cfg = inr jar ->
    serve_file srv jar url = Some response ->
    exists p,
      In (OpenWrite p) (new_events (download_file srv cfg (JStr url) (JStr to)) w).

(** ** The specification's wording of idempotence *)

(** After a run that exited with status 0, a second run on the files it
    left, with the same arguments and the same server, opens no file for
    writing. *)
Definition second_run_skips_every_file : Prop :=
  forall srv schedule a w,
    force a = false ->
    fst (main srv schedule a w) = EXIT_OK ->
    forall p,
      ~ In (OpenWrite p)
          (trace (snd (main srv schedule a
                         (mk_world (fs (snd (main srv schedule a w))) [])))).

(** ** Albums that end without a file being asked for *)

(** The page of album [u] lacks the page-data element, or its first
    download item does not offer the configured format. *)
Definition skipped (srv : server) (cfg : config) (jar : cookiejar) (u : string)
  : Prop :=
  serve_page srv jar u = Some NoDiv
  \/ exists data artist album downloads,
       serve_page srv jar u = Some (Blob data)
       /\ first_item_field data "artist" = inr artist
       /\ first_item_field data "title" = inr album
       /\ first_item_field data "downloads" = inr downloads
       /\ contains (FORMAT cfg) downloads = inr false.

(** ** The specification's wording of the orchestrator *)

(** Every album URL handed to the sequential loop is requested, whatever
    happens to the other items. *)
Definition every_item_is_processed : Prop :=
  forall srv cfg jar links w u,
    get_cookies cfg = inr jar ->
    In (JStr u) links ->
    In (HttpGetPage jar u)
       (trace (final_world (download_each srv cfg links w))).

(** ** The progress bar *)

Definition is_update (e : event) : bool :=
  match e with
  | TqdmUpdate => true
  | _ => false
  end.

(** How often the progress bar was advanced in [t]. *)
Definition updates (t : list event) : nat :=
  length (List.filter is_update t).

(** The computation leaves the progress bar where it is, whether it
    returns or raises. *)
Definition steady {A} (m : M A) : Prop :=
  forall w, updates (trace (final_world (m w))) = updates (trace w).

(** The computation advances the progress bar once when it returns and
    not at all when it raises. *)
Definition ticks {A} (m : M A) : Prop :=
  forall w,
    updates (trace (final_world (m w)))
    = (updates (trace w)
       + match m w with Ok _ _ => 1 | Raise _ _ => 0 end)%nat.

(** How many of the calls in [order] return normally when the pool runs
    them from [w]. *)
Fixpoint returned (srv : server) (cfg : config) (order : list json)
    (w : world) : nat :=
  match order with
  | [] => 0
  | link :: rest =>
      (match download_album srv cfg link w with
       | Ok _ _ => 1
       | Raise _ _ => 0
       end
       + returned srv cfg rest (final_world (download_album srv cfg link w)))%nat
  end.

(** * Sample servers and configurations *)

Module Sample.

Definition w0 : world := mk_world ∅ [].

Definition cfg0 : config := mk_config 0 "/music" "firefox" "flac" false.

Definition args0 : args := mk_args "fan" "firefox" "/music" "flac" 1 false 0.

Definition jar0 : cookiejar := Jar "firefox".

(** A machine with no directory of its own; a directory that holds a
    file reports one block. *)
Definition plain : host := mk_host (fun _ => false) (fun _ => 4096).

Definition album1 : string := "https://bandcamp.com/download?id=1".
Definition album2 : string := "https://bandcamp.com/download?id=2".
Definition file1 : string := "https://p4.bcbits.com/download/album/one".
Definition file2 : string := "https://p4.bcbits.com/download/album/two".

(** The blob of a profile page. *)
Definition profile (count : Z) (urls : list (string * json)) : json :=
  JObj [ ("collection_count", JNum count);
         ("fan_data", JObj [("fan_id", JNum 42)]);
         ("collection_data",
          JObj [("last_token", JStr "1700000000:1:a::");
                ("redownload_urls", JObj urls)]) ].

(** An answer of the collection endpoint. *)
Definition listing (urls : list (string * json)) : post_response :=
  mk_post_response 200 (Some (JObj [("redownload_urls", JObj urls)])).

(** The blob of an album download page. *)
Definition album_blob (artist title : string) (downloads : list (string * json))
  : json :=
  JObj [ ("download_items",
          JArr [ JObj [ ("artist", JStr artist);
                        ("title", JStr title);
                        ("downloads", JObj downloads) ] ]) ].

Definition descriptor (url : string) : json := JObj [("url", JStr url)].

Definition attachment (name : string) (size : string) (chunks : list string)
  : file_response :=
  mk_file_response 200
    [ ("Content-Disposition", ("attachment; filename*=UTF-8''" ++ name)%string);
      ("Content-Length", size) ]
    chunks true.

(** A profile server: one embedded URL, one answer to every POST. *)
Definition profile_server (count : Z) (first next : list (string * json))
  : server :=
  mk_server
    (fun _ url =>
       if String.eqb url (USER_URL "fan") then Some (Blob (profile count first))
       else None)
    (fun _ _ _ => Some (listing next))
    (fun _ _ => None)
    plain.

(** Three purchases declared, one embedded, one more returned. *)
Definition srv_short : server :=
  profile_server 3 [("a1", JStr album1)] [("a2", JStr album2)].

(** The answer repeats the embedded URL under another key. *)
Definition srv_repeat : server :=
  profile_server 2 [("a1", JStr album1)] [("p1", JStr album1)].

(** No purchase at all. *)
Definition srv_empty : server := profile_server 0 [] [].

(** The profile page has no page-data element. *)
Definition srv_nodiv : server :=
  mk_server (fun _ _ => Some NoDiv) (fun _ _ _ => None) (fun _ _ => None)
    plain.

Definition ui0 : user_info :=
  mk_user_info (JNum 3) (JNum 42) (JStr "1700000000:1:a::") [JStr album1].

(** Two albums; the pages and the files are given per URL. *)
Definition shop (page1 page2 : page) (resp1 resp2 : option file_response)
  : server :=
  mk_server
    (fun _ url =>
       if String.eqb url (USER_URL "fan") then
         Some (Blob (profile 2 [("a1", JStr album1)]))
       else if String.eqb url album1 then Some page1
       else if String.eqb url album2 then Some page2
       else None)
    (fun _ _ _ => Some (listing [("a2", JStr album2)]))
    (fun _ url =>
       if String.eqb url file1 then resp1
       else if String.eqb url file2 then resp2
       else None)
    plain.

Definition flac_page (artist title file : string) : page :=
  Blob (album_blob artist title [("flac", descriptor file)]).

Definition not_found : file_response := mk_file_response 404 [] [] true.

(** The first album's file answers 404. *)
Definition srv_404 : server :=
  shop (flac_page "Ann" "One" file1) (flac_page "Bob" "Two" file2)
       (Some not_found)
       (Some (attachment "Two.flac" "3" ["abc"])).

(** Both files are served. *)
Definition srv_fine : server :=
  shop (flac_page "Ann" "One" file1) (flac_page "Bob" "Two" file2)
       (Some (attachment "One.flac" "5" ["he"; "llo"]))
       (Some (attachment "Two.flac" "3" ["abc"])).

(** The first album is offered as mp3 only. *)
Definition srv_mp3_only : server :=
  shop (Blob (album_blob "Ann" "One" [("mp3-320", descriptor file1)]))
       (flac_page "Bob" "Two" file2)
       None
       (Some (attachment "Two.flac" "3" ["abc"])).

(** An empty list of download items, then an album offered as mp3 only. *)
Definition srv_odd : server :=
  shop (Blob (JObj [("download_items", JArr [])]))
       (Blob (album_blob "Bob" "Two" [("mp3-320", descriptor file2)]))
       None None.

(** The declared length of the first file is not the length served. *)
Definition srv_wrong_length : server :=
  shop (flac_page "Ann" "One" file1) (flac_page "Bob" "Two" file2)
       (Some (attachment "One.flac" "9" ["he"; "llo"]))
       (Some (attachment "Two.flac" "3" ["abc"])).

(** Both files are served, with bodies of the same length. *)
Definition srv_even : server :=
  shop (flac_page "Ann" "One" file1) (flac_page "Bob" "Two" file2)
       (Some (attachment "One.flac" "3" ["o"; "ne"]))
       (Some (attachment "Two.flac" "3" ["two"])).

(** A file answer without a content-disposition header. *)
Definition bare_response : file_response :=
  mk_file_response 200 [("Content-Length", "3")] ["abc"] true.

Definition srv_bare : server :=
  shop (flac_page "Ann" "One" file1) (flac_page "Bob" "Two" file2)
       (Some bare_response)
       (Some (attachment "Two.flac" "3" ["abc"])).

End Sample.

(** * Further sample servers *)

Module Sample2.

Definition args_verbose : args :=
  mk_args "fan" "firefox" "/music" "flac" 1 false 1.

(** The collection endpoint answers 503. *)
Definition srv_post_503 : server :=
  mk_server
    (fun _ url =>
       if String.eqb url (USER_URL "fan") then
         Some (Blob (Sample.profile 2 [("a1", JStr Sample.album1)]))
       else None)
    (fun _ _ _ => Some (mk_post_response 503 None))
    (fun _ _ => None)
    Sample.plain.

(** The first album's page lacks the page-data element. *)
Definition srv_no_pagedata : server :=
  Sample.shop NoDiv (Sample.flac_page "Bob" "Two" Sample.file2)
    None
    (Some (Sample.attachment "Two.flac" "3" ["abc"])).

(** The first file is named by an absolute path. *)
Definition srv_absolute : server :=
  Sample.shop (Sample.flac_page "Ann" "One" Sample.file1)
    (Sample.flac_page "Bob" "Two" Sample.file2)
    (Some (Sample.attachment "%2Ftmp%2Fone.flac" "3" ["abc"]))
    (Some (Sample.attachment "Two.flac" "3" ["abc"])).

(** A world where the first album of [Sample.srv_fine] is in place. *)
Definition w_one : world :=
  mk_world {[ "/music/Ann/One.flac"%string := "hello"%string ]} [].

(** The first file is served under a name that decodes to the empty
    string. *)
Definition srv_nameless : server :=
  Sample.shop (Sample.flac_page "Ann" "One" Sample.file1)
    (Sample.flac_page "Bob" "Two" Sample.file2)
    (Some (Sample.attachment "" "3" ["abc"]))
    (Some (Sample.attachment "Two.flac" "3" ["abc"])).

(** Two artists whose files have the same name and different lengths. *)
Definition srv_same_name : server :=
  Sample.shop (Sample.flac_page "Ann" "One" Sample.file1)
    (Sample.flac_page "Bob" "Two" Sample.file2)
    (Some (Sample.attachment "Album.flac" "5" ["he"; "llo"]))
    (Some (Sample.attachment "Album.flac" "3" ["abc"])).

(** Two albums of one artist whose files have the same name and
    different lengths. *)
Definition srv_clash : server :=
  Sample.shop (Sample.flac_page "Ann" "One" Sample.file1)
    (Sample.flac_page "Ann" "Two" Sample.file2)
    (Some (Sample.attachment "Album.flac" "5" ["he"; "llo"]))
    (Some (Sample.attachment "Album.flac" "3" ["abc"])).

Definition cfg_force : config := mk_config 0 "/music" "firefox" "flac" true.

(** A world where a regular file stands at the directory of the first
    artist. *)
Definition w_blocked : world :=
  mk_world {[ "/music/Ann"%string := "notes"%string ]} [].

(** A world where the first album is in place with another size. *)
Definition w_stale : world :=
  mk_world {[ "/music/Ann/One.flac"%string := "stale data"%string ]} [].

End Sample2.

(** * Reasoning principles *)

(** ** Computations see the trace only to extend it *)

Lemma world_eta (w : world) : mk_world (fs w) (trace w) = w.
Proof. destruct w; reflexivity. Qed.

Lemma local_ret {A} (a : A) : local (ret a).
Proof. intros [f t]; unfold ret; simpl. now rewrite app_nil_r. Qed.

Lemma local_raise {A} (e : exn) : local (@raise A e).
Proof. intros [f t]; unfold raise; simpl. now rewrite app_nil_r. Qed.

Lemma local_lift {A} (r : exn + A) : local (lift r).
Proof. destruct r; [apply local_raise | apply local_ret]. Qed.

Lemma local_emit (e : event) : local (emit e).
Proof. intros [f t]; reflexivity. Qed.

Lemma local_bind {A B} (m : M A) (k : A -> M B) :
  local m -> (forall a, local (k a)) -> local (bind m k).
Proof.
  intros Hm Hk w. unfold bind. rewrite (Hm w).
  destruct (m (mk_world (fs w) [])) as [a w1 | e w1]; simpl; [|reflexivity].
  rewrite (Hk a (mk_world (fs w1) (trace w ++ trace w1))); simpl.
  rewrite (Hk a w1).
  destruct (k a (mk_world (fs w1) [])) as [b w2 | e w2]; simpl;
    now rewrite app_assoc.
Qed.

Lemma local_when (b : bool) (m : M unit) : local m -> local (when b m).
Proof. destruct b; [trivial | intros _; apply local_ret]. Qed.

Lemma local_path_exists (h : host) (path : string) :
  local (path_exists h path).
Proof. intros [f t]; unfold path_exists; simpl. now rewrite app_nil_r. Qed.

Lemma local_stat_size (h : host) (path : string) : local (stat_size h path).
Proof.
  intros [f t]; unfold stat_size; simpl.
  destruct (f !! path); [|destruct (is_dir h f path)]; simpl;
    now rewrite app_nil_r.
Qed.

Lemma local_makedirs (path : string) : local (makedirs path).
Proof.
  intros [f t]; unfold makedirs; simpl.
  destruct (makedirs_error f path); simpl; now rewrite app_nil_r.
Qed.

Lemma local_write_file (h : host) (path content : string) :
  local (write_file h path content).
Proof.
  intros [f t]; unfold write_file; simpl.
  destruct (open_error h f path); simpl; [now rewrite app_nil_r | reflexivity].
Qed.

Create HintDb local_db.
#[export] Hint Resolve local_ret local_raise local_lift local_emit
  local_when local_path_exists local_stat_size local_makedirs
  local_write_file : local_db.

(** Breaks a computation down along its binds and case distinctions. *)
Ltac local_step :=
  match goal with
  | |- local (bind _ _) => apply local_bind; [ | intros ]
  | |- local (match ?x with _ => _ end) => destruct x
  | |- local (let _ := _ in _) => cbv zeta
  | |- local _ => solve [ auto with local_db ]
  end.

Lemma local_get_page srv cfg url : local (get_page srv cfg url).
Proof. unfold get_page. repeat local_step. Qed.

Lemma local_get_user_collection srv cfg ui :
  local (get_user_collection srv cfg ui).
Proof. unfold get_user_collection. repeat local_step. Qed.

Lemma local_get_download_links_for_user srv cfg user :
  local (get_download_links_for_user srv cfg user).
Proof.
  unfold get_download_links_for_user.
  repeat first [ apply local_get_page
               | apply local_get_user_collection
               | local_step ].
Qed.

Lemma local_save srv cfg response path : local (save srv cfg response path).
Proof. unfold save. repeat local_step. Qed.

Lemma local_store srv cfg response path : local (store srv cfg response path).
Proof.
  unfold store. repeat first [ apply local_save | local_step ].
Qed.

Lemma local_download_file srv cfg url to :
  local (download_file srv cfg url to).
Proof.
  unfold download_file. repeat first [ apply local_store | local_step ].
Qed.

Lemma local_download_album srv cfg link :
  local (download_album srv cfg link).
Proof.
  unfold download_album.
  repeat first [ apply local_get_page
               | apply local_download_file
               | local_step ].
Qed.

Lemma local_download_each srv cfg links :
  local (download_each srv cfg links).
Proof.
  induction links as [|link rest IH]; simpl.
  - apply local_ret.
  - apply local_bind; [apply local_download_album | intros; exact IH].
Qed.

Lemma final_world_prepend {A} (t : list event) (r : result A) :
  final_world (prepend t r)
  = mk_world (fs (final_world r)) (t ++ trace (final_world r)).
Proof. destruct r; reflexivity. Qed.

Lemma value_of_prepend {A} (t : list event) (r : result A) :
  value_of (prepend t r) = value_of r.
Proof. destruct r; reflexivity. Qed.

(** What a local computation leaves: the old trace, then its own events. *)
Lemma local_trace {A} (m : M A) (w : world) :
  local m -> trace (final_world (m w)) = trace w ++ new_events m w.
Proof. intros H. rewrite (H w), final_world_prepend. reflexivity. Qed.

Lemma local_fs {A} (m : M A) (w : world) (t : list event) :
  local m ->
  fs (final_world (m (mk_world (fs w) t))) = fs (final_world (m w)).
Proof.
  intros H. rewrite (H w), (H (mk_world (fs w) t)).
  now rewrite !final_world_prepend.
Qed.

Lemma local_value {A} (m : M A) (w : world) (t : list event) :
  local m -> value_of (m (mk_world (fs w) t)) = value_of (m w).
Proof.
  intros H. rewrite (H w), (H (mk_world (fs w) t)).
  now rewrite !value_of_prepend.
Qed.

Lemma pool_map_ok srv cfg order w :
  exists w', pool_map srv cfg order w = Ok tt w'.
Proof.
  revert w; induction order as [|link rest IH]; intros w; simpl.
  - now exists w.
  - apply IH.
Qed.

Lemma local_pool_map srv cfg order : local (pool_map srv cfg order).
Proof.
  induction order as [|link rest IH]; intros w; simpl.
  - now rewrite app_nil_r, world_eta.
  - rewrite (local_download_album srv cfg link w).
    set (r := download_album srv cfg link (mk_world (fs w) [])).
    rewrite final_world_prepend.
    rewrite (IH (mk_world _ (trace w ++ _))); simpl.
    rewrite (IH (final_world r)).
    destruct (pool_map srv cfg rest (mk_world (fs (final_world r)) []));
      simpl; now rewrite app_assoc.
Qed.

(** * The collection enumerator *)

(** The body that [generate_collection_post_payload] builds when the
    declared count is the integer [n]. *)
Lemma payload_of_count (ui : user_info) (n : Z) :
  collection_count ui = JNum n ->
  generate_collection_post_payload ui
  = inr [ ("fan_id", user_id ui);
          ("count", JNum (n - Z.of_nat (length (download_urls ui))));
          ("older_than_token", last_token ui) ].
Proof.
  intros Hn. unfold generate_collection_post_payload. now rewrite Hn.
Qed.

(** [get_user_collection] emits one event whatever the server answers. *)
Lemma get_user_collection_one_post srv cfg ui jar body w :
  generate_collection_post_payload ui = inr body ->
  get_cookies cfg = inr jar ->
  new_events (get_user_collection srv cfg ui) w
  = [HttpPost jar COLLECTION_POST_URL (JObj body)].
Proof.
  intros Hp Hj. unfold new_events, get_user_collection, bind, lift.
  rewrite Hp, Hj; simpl.
  destruct (serve_post srv jar COLLECTION_POST_URL (JObj body)) as [r|];
    [|reflexivity].
  destruct (status_raises (post_status r)); simpl; [reflexivity|].
  destruct (post_text r) as [j|]; simpl; [|reflexivity].
  destruct (getitem j "redownload_urls") as [e|urls]; simpl; [reflexivity|].
  destruct (values urls); reflexivity.
Qed.

(** ** C8 *)

(** C8.  For a collection state whose total count is the integer [n],
    the body of the continuation request is the object with [fan_id]
    the fan identifier, [count] the total minus the number of URLs
    collected so far, and [older_than_token] the current token; it is
    the body of the one POST that [get_user_collection] issues. *)
Theorem continuation_request_body srv cfg ui n jar w :
  collection_count ui = JNum n ->
  get_cookies cfg = inr jar ->
  generate_collection_post_payload ui
  = inr [ ("fan_id", user_id ui);
          ("count", JNum (n - Z.of_nat (length (download_urls ui))));
          ("older_than_token", last_token ui) ]
  /\ new_events (get_user_collection srv cfg ui) w
     = [ HttpPost jar COLLECTION_POST_URL
           (JObj [ ("fan_id", user_id ui);
                   ("count", JNum (n - Z.of_nat (length (download_urls ui))));
                   ("older_than_token", last_token ui) ]) ].
Proof.
  intros Hn Hj. split.
  - now apply payload_of_count.
  - apply get_user_collection_one_post; [now apply payload_of_count | exact Hj].
Qed.

Lemma continuation_request_body_witness :
  generate_collection_post_payload Sample.ui0
  = inr [ ("fan_id", JNum 42);
          ("count", JNum 2);
          ("older_than_token", JStr "1700000000:1:a::") ]
  /\ new_events (get_user_collection Sample.srv_short Sample.cfg0 Sample.ui0)
       Sample.w0
     = [ HttpPost Sample.jar0 COLLECTION_POST_URL
           (JObj [ ("fan_id", JNum 42);
                   ("count", JNum 2);
                   ("older_than_token", JStr "1700000000:1:a::") ]) ].
Proof.
  apply (continuation_request_body Sample.srv_short Sample.cfg0 Sample.ui0 3
           Sample.jar0 Sample.w0); reflexivity.
Defined.

(** ** One continuation request, appended as it comes *)

Lemma get_user_collection_ok srv cfg ui jar body response new w :
  generate_collection_post_payload ui = inr body ->
  get_cookies cfg = inr jar ->
  serve_post srv jar COLLECTION_POST_URL (JObj body) = Some response ->
  answers response new ->
  get_user_collection srv cfg ui w
  = Ok (mk_user_info (collection_count ui) (user_id ui) (last_token ui)
          (download_urls ui ++ new))
       (mk_world (fs w)
          (trace w ++ [HttpPost jar COLLECTION_POST_URL (JObj body)])).
Proof.
  intros Hp Hj Hs (Hst & data & urls & Ht & Hu & Hv).
  unfold get_user_collection, bind, lift.
  rewrite Hp, Hj; simpl. rewrite Hs, Hst; simpl.
  rewrite Ht; simpl. rewrite Hu; simpl. now rewrite Hv.
Qed.

Lemma user_info_eta (ui : user_info) :
  mk_user_info (collection_count ui) (user_id ui) (last_token ui)
    (download_urls ui) = ui.
Proof. destruct ui; reflexivity. Qed.

Lemma get_download_links_for_user_ok srv cfg user jar data ui body response new w :
  get_cookies cfg = inr jar ->
  serve_page srv jar (USER_URL user) = Some (Blob data) ->
  profile_fields data ui ->
  generate_collection_post_payload ui = inr body ->
  serve_post srv jar COLLECTION_POST_URL (JObj body) = Some response ->
  answers response new ->
  get_download_links_for_user srv cfg user w
  = Ok (Some (download_urls ui ++ new))
       (mk_world (fs w)
          (trace w ++ [ Print (MsgRetrieving user);
                        HttpGetPage jar (USER_URL user);
                        HttpPost jar COLLECTION_POST_URL (JObj body) ])).
Proof.
  intros Hj Hpage (Hc & (fd & Hfd & Hid) & (cd & urls & Hcd & Htok & Hu & Hv))
         Hp Hs Ha.
  unfold get_download_links_for_user, get_page, bind, lift, emit.
  rewrite Hj; simpl. rewrite Hpage; simpl.
  rewrite Hc; simpl. rewrite Hfd; simpl. rewrite Hid; simpl.
  rewrite Hcd; simpl. rewrite Htok; simpl. rewrite ?Hcd; simpl.
  rewrite Hu; simpl. rewrite Hv; simpl.
  rewrite user_info_eta.
  erewrite get_user_collection_ok by eassumption. simpl.
  now rewrite <- !app_assoc.
Qed.

(** ** C1 *)

(** C1, as the specification words it, fails: three purchases declared,
    one embedded, one returned by the only POST; two URLs come back. *)
Lemma enumeration_reaches_total_fails : ~ enumeration_reaches_total.
Proof.
  intros H.
  specialize (H Sample.srv_short Sample.cfg0 "fan"%string Sample.jar0
                (Sample.profile 3 [("a1"%string, JStr Sample.album1)]) 3
                Sample.w0).
  specialize (H _ _ eq_refl eq_refl eq_refl eq_refl).
  discriminate H.
Qed.

(** C1, amended.  For a profile that declares [n] purchases the
    enumerator issues exactly one continuation POST, asking for [n]
    minus the number of embedded URLs; when that request is answered the
    enumeration returns the embedded URLs followed by the URLs of the
    answer, so the length of the result is the sum of the two pages and
    equals [n] exactly when the answer holds the number asked for. *)
Theorem single_continuation_request
    srv cfg user jar data ui n response new w :
  get_cookies cfg = inr jar ->
  serve_page srv jar (USER_URL user) = Some (Blob data) ->
  profile_fields data ui ->
  collection_count ui = JNum n ->
  serve_post srv jar COLLECTION_POST_URL
    (JObj [ ("fan_id", user_id ui);
            ("count", JNum (n - Z.of_nat (length (download_urls ui))));
            ("older_than_token", last_token ui) ]) = Some response ->
  answers response new ->
  get_download_links_for_user srv cfg user w
  = Ok (Some (download_urls ui ++ new))
       (mk_world (fs w)
          (trace w ++
           [ Print (MsgRetrieving user);
             HttpGetPage jar (USER_URL user);
             HttpPost jar COLLECTION_POST_URL
               (JObj [ ("fan_id", user_id ui);
                       ("count", JNum (n - Z.of_nat (length (download_urls ui))));
                       ("older_than_token", last_token ui) ]) ]))
  /\ length (download_urls ui ++ new)
     = (length (download_urls ui) + length new)%nat
  /\ (Z.of_nat (length (download_urls ui ++ new)) = n
      <-> Z.of_nat (length new) = n - Z.of_nat (length (download_urls ui))).
Proof.
  intros Hj Hpage Hfields Hn Hs Ha. split; [|split].
  - eapply get_download_links_for_user_ok; eauto using payload_of_count.
  - apply length_app.
  - rewrite length_app. lia.
Qed.

Lemma single_continuation_request_witness :
  get_download_links_for_user Sample.srv_short Sample.cfg0 "fan" Sample.w0
  = Ok (Some ([JStr Sample.album1] ++ [JStr Sample.album2]))
       (mk_world ∅
          ([] ++
           [ Print (MsgRetrieving "fan");
             HttpGetPage Sample.jar0 (USER_URL "fan");
             HttpPost Sample.jar0 COLLECTION_POST_URL
               (JObj [ ("fan_id", JNum 42);
                       ("count", JNum (3 - Z.of_nat (length [JStr Sample.album1])));
                       ("older_than_token", JStr "1700000000:1:a::") ]) ]))
  /\ length ([JStr Sample.album1] ++ [JStr Sample.album2])
     = (length [JStr Sample.album1] + length [JStr Sample.album2])%nat
  /\ (Z.of_nat (length ([JStr Sample.album1] ++ [JStr Sample.album2])) = 3
      <-> Z.of_nat (length [JStr Sample.album2])
          = 3 - Z.of_nat (length [JStr Sample.album1])).
Proof.
  apply (single_continuation_request Sample.srv_short Sample.cfg0 "fan"
           Sample.jar0 (Sample.profile 3 [("a1"%string, JStr Sample.album1)])
           Sample.ui0 3 (Sample.listing [("a2"%string, JStr Sample.album2)])
           [JStr Sample.album2] Sample.w0).
  - reflexivity.
  - reflexivity.
  - unfold profile_fields; simpl. split; [reflexivity|]. split.
    + eexists; split; reflexivity.
    + eexists _, _; repeat split; reflexivity.
  - reflexivity.
  - reflexivity.
  - unfold answers; simpl. split; [reflexivity|].
    eexists _, _; repeat split; reflexivity.
Defined.

(** The embedded first page is the list of the values of its map as
    they come: a URL held under two keys is listed twice. *)
Example first_page_keeps_repeats :
  values (JObj [ ("a1"%string, JStr Sample.album1);
                 ("p1"%string, JStr Sample.album1) ])
  = inr [JStr Sample.album1; JStr Sample.album1].
Proof. reflexivity. Qed.

(** ** C2 *)

(** C2, as the specification words it, fails: the answer repeats the
    embedded URL and the result holds it twice. *)
Lemma collected_urls_never_repeat_fails : ~ collected_urls_never_repeat.
Proof.
  intros H.
  specialize (H Sample.srv_repeat Sample.cfg0 "fan"%string Sample.w0 _ _ eq_refl).
  apply NoDup_cons in H as [Hin _]. apply Hin. left.
Qed.

(** C2, amended.  Merging a page appends every value of its URL map, in
    map order, after the URLs already collected and suppresses nothing:
    the merged collection is the concatenation.  It is free of
    duplicates exactly when the URLs collected before are, the page is,
    and the two share no URL. *)
Theorem merge_appends_every_url srv cfg ui jar body response new w :
  generate_collection_post_payload ui = inr body ->
  get_cookies cfg = inr jar ->
  serve_post srv jar COLLECTION_POST_URL (JObj body) = Some response ->
  answers response new ->
  exists ui' w',
    get_user_collection srv cfg ui w = Ok ui' w'
    /\ download_urls ui' = download_urls ui ++ new
    /\ (NoDup (download_urls ui')
        <-> NoDup (download_urls ui) /\ NoDup new
            /\ forall u, In u (download_urls ui) -> ~ In u new).
Proof.
  intros Hp Hj Hs Ha.
  eexists _, _. split; [eapply get_user_collection_ok; eassumption|].
  simpl. split; [reflexivity|].
  rewrite NoDup_app. setoid_rewrite list_elem_of_In. tauto.
Qed.

Lemma merge_appends_every_url_witness :
  exists ui' w',
    get_user_collection Sample.srv_repeat Sample.cfg0
      (mk_user_info (JNum 2) (JNum 42) JNull [JStr Sample.album1]) Sample.w0
    = Ok ui' w'
    /\ download_urls ui' = [JStr Sample.album1] ++ [JStr Sample.album1]
    /\ (NoDup (download_urls ui')
        <-> NoDup [JStr Sample.album1] /\ NoDup [JStr Sample.album1]
            /\ forall u, In u [JStr Sample.album1] -> ~ In u [JStr Sample.album1]).
Proof.
  apply (merge_appends_every_url Sample.srv_repeat Sample.cfg0
           (mk_user_info (JNum 2) (JNum 42) JNull [JStr Sample.album1])
           Sample.jar0
           [ ("fan_id"%string, JNum 42); ("count"%string, JNum 1);
             ("older_than_token"%string, JNull) ]
           (Sample.listing [("p1"%string, JStr Sample.album1)])
           [JStr Sample.album1] Sample.w0).
  - reflexivity.
  - reflexivity.
  - reflexivity.
  - unfold answers; simpl. split; [reflexivity|].
    eexists _, _; repeat split; reflexivity.
Defined.

(** * The album resolver *)

Lemma trace_kept {A} (m : M A) (w : world) (e : event) :
  local m -> In e (trace w) -> In e (trace (final_world (m w))).
Proof.
  intros Hm Hin. rewrite (local_trace m w Hm). apply in_or_app. now left.
Qed.

Lemma bind_keeps {A B} (m : M A) (k : A -> M B) (w : world) (e : event) :
  (forall a, local (k a)) ->
  In e (trace (final_world (m w))) ->
  In e (trace (final_world (bind m k w))).
Proof.
  intros Hk Hin. unfold bind.
  destruct (m w) as [a w1|x w1]; simpl in *; [|exact Hin].
  now apply trace_kept.
Qed.

Lemma get_page_requested srv cfg jar u w :
  get_cookies cfg = inr jar ->
  In (HttpGetPage jar u) (trace (final_world (get_page srv cfg (JStr u) w))).
Proof.
  intros Hj. unfold get_page, bind, lift, emit. rewrite Hj. simpl.
  destruct (serve_page srv jar u); simpl; apply in_or_app; right; now left.
Qed.

(** A call of [download_album] on a [str] starts by requesting it. *)
Lemma download_album_requested srv cfg jar u w :
  get_cookies cfg = inr jar ->
  In (HttpGetPage jar u)
     (trace (final_world (download_album srv cfg (JStr u) w))).
Proof.
  intros Hj. unfold download_album. apply bind_keeps.
  - intros p. destruct p;
      repeat first [ apply local_download_file | local_step ].
  - now apply get_page_requested.
Qed.

(** A call of [download_file] on a [str] starts by requesting it. *)
Lemma download_file_requested srv cfg jar f to w :
  get_cookies cfg = inr jar ->
  In (HttpGetFile jar f)
     (trace (final_world (download_file srv cfg (JStr f) to w))).
Proof.
  intros Hj. unfold download_file.
  unfold bind at 1. unfold lift at 1. rewrite Hj. unfold ret at 1.
  cbv beta iota. apply bind_keeps.
  - intros _. destruct (serve_file srv jar f);
      repeat first [ apply local_store | local_step ].
  - simpl. apply in_or_app. right. now left.
Qed.

Lemma skipped_returns srv cfg jar u w :
  get_cookies cfg = inr jar ->
  skipped srv cfg jar u ->
  exists t,
    download_album srv cfg (JStr u) w
    = Ok tt (mk_world (fs w) (trace w ++ HttpGetPage jar u :: t))
    /\ forall jar' f, ~ In (HttpGetFile jar' f) t.
Proof.
  intros Hj [Hp | (data & artist & album & downloads & Hp & Ha & Ht & Hd & Hc)];
    unfold download_album, get_page, bind, lift, emit;
    rewrite Hj; simpl; rewrite Hp; simpl.
  - eexists. rewrite <- !app_assoc. split; [reflexivity|].
    intros jar' f [H|[H|[]]]; discriminate H.
  - rewrite Ha, Ht, Hd; simpl. rewrite Hc; simpl.
    eexists. rewrite <- !app_assoc. split; [reflexivity|].
    intros jar' f [H|[H|[]]]; discriminate H.
Qed.

(** ** C7 *)

(** C7.  When the per-format map of an album's first download item does
    not hold the configured format, [download_album] returns normally
    after the page request alone (no file is asked for, the file system
    is untouched), with exactly one warning, which names the album and
    the format, and one progress update; the loop and the pool go on
    with the other albums, whose outcome, files and events are what
    they would have been. *)
Theorem missing_format_skips srv cfg jar u data artist album kvs w :
  get_cookies cfg = inr jar ->
  serve_page srv jar u = Some (Blob data) ->
  first_item_field data "artist" = inr artist ->
  first_item_field data "title" = inr album ->
  first_item_field data "downloads" = inr (JObj kvs) ->
  dict_get (FORMAT cfg) (dict_of_pairs kvs) = None ->
  download_album srv cfg (JStr u) w
  = Ok tt (mk_world (fs w)
             (trace w ++ [ HttpGetPage jar u;
                           TqdmWrite (MsgNoFormat album (JStr u) (FORMAT cfg));
                           TqdmUpdate ]))
  /\ (forall rest,
        download_each srv cfg (JStr u :: rest) w
        = download_each srv cfg rest (final_world (download_album srv cfg (JStr u) w)))
  /\ (forall rest,
        pool_map srv cfg (JStr u :: rest) w
        = pool_map srv cfg rest (final_world (download_album srv cfg (JStr u) w)))
  /\ (forall other,
        let w' := final_world (download_album srv cfg (JStr u) w) in
        value_of (download_album srv cfg other w')
        = value_of (download_album srv cfg other w)
        /\ fs (final_world (download_album srv cfg other w'))
           = fs (final_world (download_album srv cfg other w))
        /\ new_events (download_album srv cfg other) w'
           = new_events (download_album srv cfg other) w).
Proof.
  intros Hj Hp Ha Ht Hd Hk.
  assert (Hrun : download_album srv cfg (JStr u) w
                 = Ok tt (mk_world (fs w)
                            (trace w ++ [ HttpGetPage jar u;
                                          TqdmWrite (MsgNoFormat album (JStr u) (FORMAT cfg));
                                          TqdmUpdate ]))).
  { unfold download_album, get_page, bind, lift, emit.
    rewrite Hj; simpl. rewrite Hp; simpl. rewrite Ha, Ht, Hd; simpl.
    rewrite Hk; simpl. now rewrite <- !app_assoc. }
  split; [exact Hrun|]. split; [|split].
  - intros rest. simpl. unfold bind. now rewrite Hrun.
  - intros rest. reflexivity.
  - intros other. rewrite Hrun. simpl.
    split; [|split].
    + apply (local_value _ w), local_download_album.
    + apply (local_fs _ w), local_download_album.
    + reflexivity.
Qed.

Lemma missing_format_skips_witness :
  download_album Sample.srv_mp3_only Sample.cfg0 (JStr Sample.album1) Sample.w0
  = Ok tt (mk_world ∅
             ([] ++ [ HttpGetPage Sample.jar0 Sample.album1;
                      TqdmWrite (MsgNoFormat (JStr "One") (JStr Sample.album1) "flac");
                      TqdmUpdate ])).
Proof.
  apply (missing_format_skips Sample.srv_mp3_only Sample.cfg0 Sample.jar0
           Sample.album1
           (Sample.album_blob "Ann" "One"
              [("mp3-320"%string, Sample.descriptor Sample.file1)])
           (JStr "Ann") (JStr "One")
           [("mp3-320"%string, Sample.descriptor Sample.file1)] Sample.w0);
    reflexivity.
Defined.

(** A call that returns normally and leaves no file request in the trace
    was a skip. *)
Lemma returns_without_file_request srv cfg jar link w1 w2 :
  get_cookies cfg = inr jar ->
  download_album srv cfg link w1 = Ok tt w2 ->
  (forall jar' f, ~ In (HttpGetFile jar' f) (trace w2)) ->
  exists v, link = JStr v /\ skipped srv cfg jar v.
Proof.
  intros Hj Hrun Hno.
  unfold download_album, get_page in Hrun.
  unfold bind at 1 2 in Hrun. unfold lift at 1 in Hrun.
  rewrite Hj in Hrun. unfold ret at 1 in Hrun. cbv beta iota in Hrun.
  destruct link as [| | |v| |]; try discriminate Hrun.
  exists v. split; [reflexivity|].
  unfold bind at 1, emit at 1 in Hrun. cbv beta iota in Hrun.
  destruct (serve_page srv jar v) as [p|] eqn:Hp; [|discriminate Hrun].
  unfold ret at 1 in Hrun. cbv beta iota in Hrun.
  destruct p as [| | |data]; [now left | discriminate Hrun .. |].
  right. unfold bind, lift in Hrun. simpl in Hrun.
  destruct (first_item_field data "artist") as [?|artist] eqn:Ha;
    [discriminate Hrun|]. simpl in Hrun.
  destruct (first_item_field data "title") as [?|album] eqn:Ht;
    [discriminate Hrun|]. simpl in Hrun.
  destruct (first_item_field data "downloads") as [?|downloads] eqn:Hd;
    [discriminate Hrun|]. simpl in Hrun.
  destruct (contains (FORMAT cfg) downloads) as [?|[|]] eqn:Hc;
    [discriminate Hrun| |]; simpl in Hrun.
  - exfalso.
    destruct (getitem downloads (FORMAT cfg)) as [?|descr];
      [discriminate Hrun|]. simpl in Hrun.
    destruct (getitem descr "url") as [?|url]; [discriminate Hrun|].
    simpl in Hrun.
    destruct url as [| | |f| |];
      try (unfold download_file, bind, lift in Hrun; rewrite Hj in Hrun;
           discriminate Hrun).
    apply (Hno jar f).
    pose proof (download_file_requested srv cfg jar f artist
                  (mk_world (fs w1) (trace w1 ++ [HttpGetPage jar v])) Hj)
      as Hreq.
    now rewrite Hrun in Hreq.
  - now exists data, artist, album, downloads.
Qed.

(** ** C10 *)

(** C10.  When the page of an album carries a blob whose
    [download_items] is an empty list, [download_album] raises
    [IndexError] right after the page request: no warning, no progress
    update.  Conversely a call that returns normally without asking for
    a file had a page without the page-data element or a first download
    item without the configured format. *)
Theorem empty_download_items_raise srv cfg jar u data w :
  get_cookies cfg = inr jar ->
  serve_page srv jar u = Some (Blob data) ->
  getitem data "download_items" = inr (JArr []) ->
  download_album srv cfg (JStr u) w
  = Raise IndexError (mk_world (fs w) (trace w ++ [HttpGetPage jar u]))
  /\ (forall link w1,
        value_of (download_album srv cfg link w1) = inr tt ->
        (forall jar' f,
           ~ In (HttpGetFile jar' f) (new_events (download_album srv cfg link) w1)) ->
        exists v, link = JStr v /\ skipped srv cfg jar v).
Proof.
  intros Hj Hp Hitems. split.
  - unfold download_album, get_page, bind, lift, emit.
    rewrite Hj; simpl. rewrite Hp; simpl.
    unfold first_item_field. now rewrite Hitems.
  - clear u data w Hp Hitems. intros link w1 Hval Hno.
    rewrite <- (local_value _ w1 [] (local_download_album srv cfg link)) in Hval.
    unfold new_events in Hno.
    destruct (download_album srv cfg link (mk_world (fs w1) []))
      as [[] w2|e w2] eqn:Hrun; [|discriminate Hval].
    now apply (returns_without_file_request srv cfg jar link _ w2 Hj Hrun).
Qed.

Lemma empty_download_items_raise_witness :
  download_album Sample.srv_odd Sample.cfg0 (JStr Sample.album1) Sample.w0
  = Raise IndexError
      (mk_world ∅ ([] ++ [HttpGetPage Sample.jar0 Sample.album1]))
  /\ exists v,
       JStr Sample.album2 = JStr v
       /\ skipped Sample.srv_odd Sample.cfg0 Sample.jar0 v.
Proof.
  destruct (empty_download_items_raise Sample.srv_odd Sample.cfg0 Sample.jar0
              Sample.album1 (JObj [("download_items"%string, JArr [])])
              Sample.w0 eq_refl eq_refl eq_refl) as [Hraise Hskip].
  split; [exact Hraise|].
  apply (Hskip (JStr Sample.album2) Sample.w0).
  - reflexivity.
  - vm_compute. intros jar' f [H|[H|[H|[]]]]; discriminate H.
Defined.

(** * The download orchestrator *)

Lemma download_each_app srv cfg before rest w w1 :
  download_each srv cfg before w = Ok tt w1 ->
  download_each srv cfg (before ++ rest) w = download_each srv cfg rest w1.
Proof.
  revert w. induction before as [|link before IH]; intros w Hrun; simpl in *.
  - unfold ret in Hrun. now inversion Hrun.
  - unfold bind in *.
    destruct (download_album srv cfg link w) as [[] w'|e w'];
      [now apply IH | discriminate Hrun].
Qed.

Lemma download_each_requested srv cfg jar links :
  get_cookies cfg = inr jar ->
  forall w w', download_each srv cfg links w = Ok tt w' ->
  forall u, In (JStr u) links -> In (HttpGetPage jar u) (trace w').
Proof.
  intros Hj. induction links as [|link rest IH]; intros w w' Hrun u Hin.
  - destruct Hin.
  - simpl in Hrun. unfold bind in Hrun.
    destruct (download_album srv cfg link w) as [[] w1|e w1] eqn:Hone;
      [|discriminate Hrun].
    destruct Hin as [->|Hin]; [|now apply (IH w1)].
    pose proof (download_album_requested srv cfg jar u w Hj) as Hreq.
    rewrite Hone in Hreq. simpl in Hreq.
    pose proof (trace_kept _ w1 _ (local_download_each srv cfg rest) Hreq) as Hk.
    now rewrite Hrun in Hk.
Qed.

Lemma pool_map_requested srv cfg jar order :
  get_cookies cfg = inr jar ->
  forall w u, In (JStr u) order ->
  In (HttpGetPage jar u) (trace (final_world (pool_map srv cfg order w))).
Proof.
  intros Hj. induction order as [|link rest IH]; intros w u Hin.
  - destruct Hin.
  - simpl. destruct Hin as [->|Hin]; [|now apply IH].
    apply trace_kept; [apply local_pool_map|].
    now apply download_album_requested.
Qed.

(** ** C3 *)

(** C3, as the specification words it, fails in the sequential loop: the
    file of the first album answers 404, [raise_for_status] raises, and
    the second album is never requested. *)
Lemma every_item_is_processed_fails : ~ every_item_is_processed.
Proof.
  intros H.
  specialize (H Sample.srv_404 Sample.cfg0 Sample.jar0
                [JStr Sample.album1; JStr Sample.album2] Sample.w0
                Sample.album2 eq_refl (or_intror (or_introl eq_refl))).
  vm_compute in H.
  destruct H as [H|[H|[]]]; discriminate H.
Qed.

(** C3, amended.  In the pool every album URL is requested whatever
    happens to the other items, and no exception leaves the pool.  In
    the sequential loop an item that ends as a skip leaves the loop
    running, and every album URL is requested when the loop returns;
    an exception raised by one item ends the loop there, the items
    after it are not processed. *)
Theorem failures_and_remaining_items srv cfg jar :
  get_cookies cfg = inr jar ->
  (forall order links w,
     Permutation order links ->
     (exists w', pool_map srv cfg order w = Ok tt w')
     /\ forall u, In (JStr u) links ->
        In (HttpGetPage jar u) (trace (final_world (pool_map srv cfg order w))))
  /\ (forall links w w',
        download_each srv cfg links w = Ok tt w' ->
        forall u, In (JStr u) links -> In (HttpGetPage jar u) (trace w'))
  /\ (forall u rest w,
        skipped srv cfg jar u ->
        exists w',
          download_album srv cfg (JStr u) w = Ok tt w'
          /\ fs w' = fs w
          /\ download_each srv cfg (JStr u :: rest) w
             = download_each srv cfg rest w')
  /\ (forall before link rest w w1 e w2,
        download_each srv cfg before w = Ok tt w1 ->
        download_album srv cfg link w1 = Raise e w2 ->
        download_each srv cfg (before ++ link :: rest) w = Raise e w2).
Proof.
  intros Hj. split; [|split; [|split]].
  - intros order links w Hperm. split; [apply pool_map_ok|].
    intros u Hin. apply pool_map_requested; [exact Hj|].
    apply (Permutation_in _ (Permutation_sym Hperm) Hin).
  - intros links. now apply download_each_requested.
  - intros u rest w Hskip.
    destruct (skipped_returns srv cfg jar u w Hj Hskip) as (t & Hrun & _).
    eexists. split; [exact Hrun|]. split; [reflexivity|].
    simpl. unfold bind. now rewrite Hrun.
  - intros before link rest w w1 e w2 Hbefore Hraise.
    rewrite (download_each_app _ _ _ _ _ _ Hbefore). simpl.
    unfold bind. now rewrite Hraise.
Qed.

Lemma failures_and_remaining_items_witness :
  download_each Sample.srv_404 Sample.cfg0
    ([] ++ JStr Sample.album1 :: [JStr Sample.album2]) Sample.w0
  = Raise HTTPError
      (mk_world ∅ [ HttpGetPage Sample.jar0 Sample.album1;
                    HttpGetFile Sample.jar0 Sample.file1 ])
  /\ In (HttpGetPage Sample.jar0 Sample.album2)
        (trace (final_world
                  (pool_map Sample.srv_404 Sample.cfg0
                     [JStr Sample.album2; JStr Sample.album1] Sample.w0))).
Proof.
  destruct (failures_and_remaining_items Sample.srv_404 Sample.cfg0
              Sample.jar0 eq_refl) as (Hpool & _ & _ & Hhalt).
  split.
  - apply Hhalt with (w1 := Sample.w0); reflexivity.
  - apply (Hpool [JStr Sample.album2; JStr Sample.album1]
             [JStr Sample.album1; JStr Sample.album2] Sample.w0
             (perm_swap _ _ [])).
    right. left. reflexivity.
Defined.

(** * The file system *)

Lemma entry_exists (P : string -> bool) (files : gmap string string) :
  existsb (fun kv => P (fst kv)) (map_to_list files) = true
  <-> exists k c, files !! k = Some c /\ P k = true.
Proof.
  rewrite existsb_exists. split.
  - intros ([k c] & Hin & HP). exists k, c. split; [|exact HP].
    apply elem_of_map_to_list. now apply list_elem_of_In.
  - intros (k & c & Hk & HP). exists (k, c). split; [|exact HP].
    apply list_elem_of_In. now apply elem_of_map_to_list.
Qed.

(** Writing a file takes no entry away. *)
Lemma entry_insert (P : string -> bool) (files : gmap string string) q c :
  existsb (fun kv => P (fst kv)) (map_to_list files) = true ->
  existsb (fun kv => P (fst kv)) (map_to_list (<[q := c]> files)) = true.
Proof.
  rewrite !entry_exists. intros (k & v & Hk & HP).
  destruct (decide (q = k)) as [->|Hne].
  - exists k, c. split; [apply lookup_insert_eq | exact HP].
  - exists k, v. split; [now rewrite lookup_insert_ne | exact HP].
Qed.

Lemma is_file_insert files p q c :
  is_file files p = true -> is_file (<[q := c]> files) p = true.
Proof.
  unfold is_file. destruct (decide (q = p)) as [->|Hne].
  - now rewrite lookup_insert_eq.
  - now rewrite lookup_insert_ne.
Qed.

Lemma is_dir_insert h files p q c :
  is_dir h files p = true -> is_dir h (<[q := c]> files) p = true.
Proof.
  unfold is_dir, has_entry_below.
  destruct (String.eqb p ""); simpl; [discriminate|].
  destruct (all_slashes p || dir_exists h (rstrip_slash p)); simpl; [trivial|].
  apply entry_insert.
Qed.

Lemma file_above_insert files p q c :
  file_above files p = true -> file_above (<[q := c]> files) p = true.
Proof. apply (entry_insert (fun k => below k p)). Qed.

(** What is in the way of making a directory stays in the way when
    files are written. *)
Lemma makedirs_error_insert files d q c :
  makedirs_error files d <> None ->
  makedirs_error (<[q := c]> files) d <> None.
Proof.
  unfold makedirs_error. destruct (String.eqb d ""); [discriminate|].
  destruct (file_above files d) eqn:Ha.
  - now rewrite (file_above_insert _ _ q c Ha).
  - destruct (is_file files d) eqn:Hf; [|congruence].
    rewrite (is_file_insert _ _ q c Hf).
    now destruct (file_above (<[q := c]> files) d).
Qed.

Lemma open_error_insert h files p q c :
  open_error h files p <> None ->
  open_error h (<[q := c]> files) p <> None.
Proof.
  unfold open_error. destruct (String.eqb p ""); [discriminate|].
  destruct (file_above files p) eqn:Ha.
  - now rewrite (file_above_insert _ _ q c Ha).
  - destruct (ends_with "/" p); simpl.
    + now destruct (file_above (<[q := c]> files) p).
    + destruct (is_dir h files p) eqn:Hd; [|congruence].
      rewrite (is_dir_insert _ _ _ q c Hd).
      now destruct (file_above (<[q := c]> files) p).
Qed.

(** A write that is refused stays refused. *)
Lemma write_error_insert srv files p q c :
  write_error srv files p <> None ->
  write_error srv (<[q := c]> files) p <> None.
Proof.
  unfold write_error. intros H.
  destruct (makedirs_error files (dirname p)) as [e|] eqn:Hm.
  - pose proof (makedirs_error_insert files (dirname p) q c) as Hi.
    rewrite Hm in Hi.
    destruct (makedirs_error (<[q := c]> files) (dirname p));
      [discriminate | exfalso; now apply Hi].
  - destruct (makedirs_error (<[q := c]> files) (dirname p));
      [discriminate | now apply open_error_insert].
Qed.

Lemma exists_at_insert srv files p q c :
  exists_at srv files p = true -> exists_at srv (<[q := c]> files) p = true.
Proof.
  unfold exists_at. rewrite !orb_true_iff.
  intros [H|H]; [left; now apply is_file_insert | right; now apply is_dir_insert].
Qed.

Lemma exists_at_file srv files p c :
  files !! p = Some c -> exists_at srv files p = true.
Proof. intros H. unfold exists_at, is_file. now rewrite H. Qed.

Lemma size_at_file srv files p c :
  files !! p = Some c -> size_at srv files p = Z.of_nat (String.length c).
Proof. intros H. unfold size_at. now rewrite H. Qed.

Lemma size_at_insert_ne srv files p q c :
  q <> p -> size_at srv (<[q := c]> files) p = size_at srv files p.
Proof. intros H. unfold size_at. now rewrite lookup_insert_ne. Qed.

(** A file that was written is found, with the size of what was
    written. *)
Lemma exists_at_written srv files p c :
  exists_at srv (<[p := c]> files) p = true.
Proof. apply (exists_at_file _ _ _ c), lookup_insert_eq. Qed.

Lemma size_at_written srv files p c :
  size_at srv (<[p := c]> files) p = Z.of_nat (String.length c).
Proof. apply size_at_file, lookup_insert_eq. Qed.

(** The directory part of a path, as [posixpath.dirname] gives it. *)
Example dirname_samples :
  map dirname
    [ "/music/Ann/One.flac"; "/music/Ann/"; "x"; ""; "/x"; "//x";
      "a/b//c"; "/"; "a/"; "/music//Ann/x" ]%string
  = [ "/music/Ann"; "/music/Ann"; ""; ""; "/"; "//";
      "a/b"; "/"; "a"; "/music//Ann" ]%string.
Proof. reflexivity. Qed.

(** What stands in the way of a write, case by case: nothing; a name
    that is empty; a path without a directory part; a regular file at the
    directory; a regular file above it; a directory at the path. *)
Example write_error_samples :
  write_error Sample.srv_fine ∅ "/music/Ann/One.flac" = None
  /\ write_error Sample.srv_fine ∅ "/music/Ann/" = Some IsADirectoryError
  /\ write_error Sample.srv_fine ∅ "One.flac" = Some FileNotFoundError
  /\ write_error Sample.srv_fine {[ "/music/Ann"%string := "a"%string ]}
       "/music/Ann/One.flac" = Some FileExistsError
  /\ write_error Sample.srv_fine {[ "/music"%string := "a"%string ]}
       "/music/Ann/One.flac" = Some NotADirectoryError
  /\ write_error Sample.srv_fine
       {[ "/music/Ann/One.flac/cover.jpg"%string := "a"%string ]}
       "/music/Ann/One.flac" = Some IsADirectoryError
  /\ write_error Sample.srv_fine
       {[ "/music/Ann/One.flac"%string := "a"%string ]}
       "/music/Ann/One.flac" = None.
Proof. vm_compute. repeat split; reflexivity. Qed.

(** * The file fetcher *)

Lemma with_events_nil w : with_events w [] = w.
Proof. unfold with_events. rewrite app_nil_r. now destruct w. Qed.

Lemma with_events_app w t1 t2 :
  with_events (with_events w t1) t2 = with_events w (t1 ++ t2).
Proof. unfold with_events; simpl. now rewrite app_assoc. Qed.

(** [save] raises what [os.makedirs] or [open] raises, before any file
    is touched; otherwise the body received is written. *)
Lemma save_runs srv cfg response path w :
  save srv cfg response path w
  = match write_error srv (fs w) path with
    | Some e =>
        Raise e (with_events w
                   (if (2 <=? VERBOSE cfg)%nat
                    then [TqdmWrite (MsgSaving path)] else []))
    | None =>
        stream_result response
          (mk_world (<[path := file_body response]> (fs w))
                    (trace w ++ save_events cfg response path))
    end.
Proof.
  unfold save, save_events, stream_result, write_error, bind, when, emit,
    makedirs, write_file, raise, ret.
  destruct (2 <=? VERBOSE cfg)%nat; cbv beta iota; cbn [fs trace];
    destruct (makedirs_error (fs w) (dirname path)); cbn [fs trace];
    try (rewrite ?with_events_nil; reflexivity);
    destruct (open_error (machine srv) (fs w) path); cbn [fs trace];
    try (rewrite ?with_events_nil; reflexivity);
    destruct (file_stream_ok response); simpl;
    now rewrite <- ?app_assoc.
Qed.

(** Up to the test for an existing file [download_file] depends on the
    server alone. *)
Lemma download_file_reaches_store srv cfg jar url to response d w :
  get_cookies cfg = inr jar ->
  serve_file srv jar url = Some response ->
  status_raises (file_status response) = false ->
  header_get "content-disposition" (file_headers response) = Some d ->
  download_file srv cfg (JStr url) (JStr to) w
  = store srv cfg response (destination cfg url d to)
      (with_events w [HttpGetFile jar url]).
Proof.
  intros Hj Hs Hst Hd. unfold download_file, bind, lift, emit.
  rewrite Hj; simpl. rewrite Hs, Hst; simpl. now rewrite Hd.
Qed.

(** With [FORCE] set [store] reads neither the declared length nor the
    size of what is in place. *)
Lemma store_forced srv cfg response path w :
  FORCE cfg = true ->
  store srv cfg response path w
  = save srv cfg response path
      (with_events w
         (if exists_at srv (fs w) path && (1 <=? VERBOSE cfg)%nat
          then [TqdmWrite (MsgOverwriting path)] else [])).
Proof.
  intros Hf. unfold store, bind, path_exists. rewrite Hf.
  fold (exists_at srv (fs w) path).
  destruct (exists_at srv (fs w) path); cbv beta iota.
  - rewrite andb_true_l. unfold when, emit, ret.
    destruct (1 <=? VERBOSE cfg)%nat; cbv beta iota;
      [reflexivity | now rewrite with_events_nil].
  - rewrite andb_false_l. now rewrite with_events_nil.
Qed.

Lemma stat_size_exists srv path w :
  exists_at srv (fs w) path = true ->
  stat_size (machine srv) path w = Ok (size_at srv (fs w) path) w.
Proof.
  unfold exists_at, is_file, stat_size, size_at.
  destruct (fs w !! path); [reflexivity|]. simpl. now intros ->.
Qed.

(** Without [FORCE] what is in place is compared with the declared
    length; nothing in place means a write. *)
Lemma store_unforced srv cfg response path w :
  FORCE cfg = false ->
  store srv cfg response path w
  = if exists_at srv (fs w) path then
      match content_length response with
      | inl e => Raise e w
      | inr n =>
          if n =? size_at srv (fs w) path then
            Ok tt (with_events w
                     ((if (3 <=? VERBOSE cfg)%nat
                       then [TqdmWrite (MsgSkipping path)] else [])
                      ++ [TqdmUpdate]))
          else
            save srv cfg response path
              (with_events w
                 (if (2 <=? VERBOSE cfg)%nat
                  then [TqdmWrite
                          (MsgWrongSize path n (size_at srv (fs w) path))]
                  else []))
      end
    else save srv cfg response path w.
Proof.
  intros Hf. unfold store, bind, path_exists. rewrite Hf.
  fold (exists_at srv (fs w) path).
  destruct (exists_at srv (fs w) path) eqn:He; [|reflexivity].
  unfold lift. destruct (content_length response) as [e|n]; [reflexivity|].
  unfold ret at 1. cbv beta iota. rewrite (stat_size_exists _ _ _ He).
  destruct (n =? size_at srv (fs w) path).
  - unfold when, emit, ret, with_events.
    destruct (3 <=? VERBOSE cfg)%nat; cbv beta iota; simpl;
      now rewrite <- ?app_assoc.
  - unfold when, emit, ret.
    destruct (2 <=? VERBOSE cfg)%nat; cbv beta iota;
      [reflexivity | now rewrite with_events_nil].
Qed.

(** Without [FORCE] a file of the declared size is left alone. *)
Lemma store_skips srv cfg response path content w :
  FORCE cfg = false ->
  fs w !! path = Some content ->
  content_length response = inr (Z.of_nat (String.length content)) ->
  store srv cfg response path w
  = Ok tt (with_events w
             ((if (3 <=? VERBOSE cfg)%nat
               then [TqdmWrite (MsgSkipping path)] else [])
              ++ [TqdmUpdate])).
Proof.
  intros Hf Hc Hlen. rewrite store_unforced by assumption.
  rewrite (exists_at_file _ _ _ _ Hc), Hlen, (size_at_file _ _ _ _ Hc).
  now rewrite Z.eqb_refl.
Qed.

(** ** The file name *)

(** With the parameter in the header the name is the rest of the line
    after it, percent-decoded. *)
Lemma target_filename_decoded url disposition group1 :
  FILENAME_REGEX_search disposition = Some group1 ->
  target_filename url disposition = unquote group1.
Proof. intros H. unfold target_filename. now rewrite H. Qed.

(** With a header that lacks the parameter the name is the last segment
    of the URL. *)
Lemma target_filename_fallback url disposition :
  FILENAME_REGEX_search disposition = None ->
  target_filename url disposition = List.last (split "/" url) EmptyString.
Proof. intros H. unfold target_filename. now rewrite H. Qed.

Lemma search_attachment value :
  FILENAME_REGEX_search ("attachment; filename*=UTF-8''" ++ value)%string
  = Some (until_newline value).
Proof. reflexivity. Qed.

Example target_filename_artist_track :
  target_filename "https://p4.bcbits.com/download/album/one"
    "attachment; filename*=UTF-8''Artist%20-%20Track.flac"
  = "Artist - Track.flac"%string.
Proof. reflexivity. Qed.

Example target_filename_plain_attachment :
  target_filename "https://p4.bcbits.com/download/album/one" "attachment"
  = "one"%string.
Proof. reflexivity. Qed.

(** ** C4 *)

(** C4.  The script does not do what the claim says of a response
    without a content-disposition header: [download_file] raises
    [KeyError] when it reads the header, right after the request, and
    nothing is written.  The fall-back to the last segment of the URL is
    reached only with a header that lacks the parameter. *)
Theorem missing_disposition_raises srv cfg jar url to response w :
  get_cookies cfg = inr jar ->
  serve_file srv jar url = Some response ->
  status_raises (file_status response) = false ->
  header_get "content-disposition" (file_headers response) = None ->
  download_file srv cfg (JStr url) to w
  = Raise KeyError (with_events w [HttpGetFile jar url]).
Proof.
  intros Hj Hs Hst Hd. unfold download_file, bind, lift, emit.
  rewrite Hj; simpl. rewrite Hs, Hst; simpl. now rewrite Hd.
Qed.

Lemma missing_disposition_raises_witness :
  download_file Sample.srv_bare Sample.cfg0 (JStr Sample.file1) (JStr "Ann")
    Sample.w0
  = Raise KeyError (with_events Sample.w0 [HttpGetFile Sample.jar0 Sample.file1]).
Proof.
  apply (missing_disposition_raises Sample.srv_bare Sample.cfg0 Sample.jar0
           Sample.file1 (JStr "Ann") Sample.bare_response Sample.w0);
    reflexivity.
Defined.

(** ** C6 *)

(** With [FORCE] set nothing is written when the answer has an error
    status. *)
Example forced_fetch_of_error_status :
  download_file Sample.srv_404 Sample2.cfg_force (JStr Sample.file1)
    (JStr "Ann") Sample.w0
  = Raise HTTPError
      (mk_world ∅ [HttpGetFile Sample.jar0 Sample.file1]).
Proof. reflexivity. Qed.

(** With [FORCE] set nothing is written when the name in the header
    decodes to the empty string: the destination is then the directory
    of the artist. *)
Example forced_fetch_of_empty_name :
  download_file Sample2.srv_nameless Sample2.cfg_force (JStr Sample.file1)
    (JStr "Ann") Sample.w0
  = Raise IsADirectoryError
      (mk_world ∅ [HttpGetFile Sample.jar0 Sample.file1]).
Proof. vm_compute. reflexivity. Qed.

(** With [FORCE] set nothing is written when a regular file stands
    where the directory of the artist is needed. *)
Example forced_fetch_below_a_file :
  download_file Sample.srv_fine Sample2.cfg_force (JStr Sample.file1)
    (JStr "Ann") Sample2.w_blocked
  = Raise FileExistsError
      (mk_world {[ "/music/Ann"%string := "notes"%string ]}
         [HttpGetFile Sample.jar0 Sample.file1]).
Proof. vm_compute. reflexivity. Qed.




(** * The run *)

Lemma writes_nothing_app (t1 t2 : list event) :
  writes_nothing t1 -> writes_nothing t2 -> writes_nothing (t1 ++ t2).
Proof.
  unfold writes_nothing. intros H1 H2. now rewrite existsb_app, H1, H2.
Qed.

Lemma writes_nothing_In (t : list event) :
  writes_nothing t -> forall p, ~ In (OpenWrite p) t.
Proof.
  unfold writes_nothing. intros H p Hin.
  assert (existsb is_write t = true) as Ht
    by (apply existsb_exists; now exists (OpenWrite p)).
  congruence.
Qed.

Lemma fileless_ret {A} (a : A) : fileless (ret a).
Proof.
  exists (inr a), []. split; [reflexivity|].
  intros w. now rewrite with_events_nil.
Qed.

Lemma fileless_raise {A} (e : exn) : fileless (@raise A e).
Proof.
  exists (inl e), []. split; [reflexivity|].
  intros w. now rewrite with_events_nil.
Qed.

Lemma fileless_lift {A} (r : exn + A) : fileless (lift r).
Proof. destruct r; [apply fileless_raise | apply fileless_ret]. Qed.

Lemma fileless_emit (e : event) : is_write e = false -> fileless (emit e).
Proof.
  intros He. exists (inr tt), [e]. split; [|reflexivity].
  unfold writes_nothing. simpl. now rewrite He.
Qed.

Lemma fileless_when (b : bool) (m : M unit) :
  fileless m -> fileless (when b m).
Proof. destruct b; [trivial | intros _; apply fileless_ret]. Qed.

Lemma fileless_bind {A B} (m : M A) (k : A -> M B) :
  fileless m -> (forall a, fileless (k a)) -> fileless (bind m k).
Proof.
  intros (v & t & Ht & Hm) Hk. destruct v as [e|a].
  - exists (inl e), t. split; [exact Ht|].
    intros w. unfold bind. now rewrite Hm.
  - destruct (Hk a) as (v' & t' & Ht' & Hk').
    exists v', (t ++ t'). split; [now apply writes_nothing_app|].
    intros w. unfold bind. rewrite Hm. simpl.
    now rewrite Hk', with_events_app.
Qed.

Create HintDb fileless_db.
#[export] Hint Resolve fileless_ret fileless_raise fileless_lift
  fileless_when : fileless_db.
#[export] Hint Extern 1 (fileless (emit _)) =>
  (apply fileless_emit; reflexivity) : fileless_db.

Ltac fileless_step :=
  match goal with
  | |- fileless (bind _ _) => apply fileless_bind; [ | intros ]
  | |- fileless (match ?x with _ => _ end) => destruct x
  | |- fileless _ => solve [ auto with fileless_db ]
  end.

Lemma fileless_get_page srv cfg url : fileless (get_page srv cfg url).
Proof. unfold get_page. repeat fileless_step. Qed.

Lemma fileless_get_user_collection srv cfg ui :
  fileless (get_user_collection srv cfg ui).
Proof. unfold get_user_collection. repeat fileless_step. Qed.

Lemma fileless_get_download_links_for_user srv cfg user :
  fileless (get_download_links_for_user srv cfg user).
Proof.
  unfold get_download_links_for_user.
  repeat first [ apply fileless_get_page
               | apply fileless_get_user_collection
               | fileless_step ].
Qed.

Lemma value_of_pack {A} (v : exn + A) (w : world) : value_of (pack v w) = v.
Proof. destruct v; reflexivity. Qed.

Lemma final_world_pack {A} (v : exn + A) (w : world) :
  final_world (pack v w) = w.
Proof. destruct v; reflexivity. Qed.

(** A fileless computation returns the same value from any two worlds. *)
Lemma fileless_value {A} (m : M A) (w1 w2 : world) :
  fileless m -> value_of (m w1) = value_of (m w2).
Proof. intros (v & t & _ & Hm). now rewrite !Hm, !value_of_pack. Qed.

(** What [run] prints before the enumeration. *)
Lemma run_preamble (a : args) (k : M Z) :
  exists t0,
    writes_nothing t0
    /\ forall w,
         bind (when (1 <=? verbose a)%nat (emit (Print (MsgArgs a))))
           (fun _ => bind (when (force a) (emit (Print MsgForceFlag)))
              (fun _ => k)) w
         = k (with_events w t0).
Proof.
  exists ((if (1 <=? verbose a)%nat then [Print (MsgArgs a)] else [])
          ++ (if force a then [Print MsgForceFlag] else [])).
  split.
  - now destruct (1 <=? verbose a)%nat, (force a).
  - intros w. unfold bind, when, emit, ret, with_events.
    destruct (1 <=? verbose a)%nat, (force a); simpl;
      rewrite <- ?app_assoc, ?app_nil_r, ?world_eta; reflexivity.
Qed.

(** [run] by what the enumeration returns. *)
Lemma run_cases srv schedule a w :
  exists t,
    writes_nothing t
    /\ match value_of (get_download_links_for_user srv (config_of_args a)
                         (username a) w) with
       | inl e => run srv schedule a w = Raise e (with_events w t)
       | inr None =>
           run srv schedule a w
           = if (1 <=? verbose a)%nat then Raise TypeError (with_events w t)
             else Ok EXIT_NO_LINKS (with_events w t)
       | inr (Some []) =>
           run srv schedule a w = Ok EXIT_NO_LINKS (with_events w t)
       | inr (Some (link :: rest)) =>
           run srv schedule a w
           = bind (download_all srv schedule a (link :: rest))
               (fun _ => bind (emit TqdmClose)
                  (fun _ => bind (emit (Print MsgDone)) (fun _ => ret EXIT_OK)))
               (with_events w t)
       end.
Proof.
  destruct (fileless_get_download_links_for_user srv (config_of_args a)
              (username a)) as (v & t & Ht & Hv).
  rewrite Hv, value_of_pack.
  unfold run. simpl VERBOSE. simpl FORCE.
  match goal with
  | |- context [ bind (when _ _) (fun _ => bind (when _ _) (fun _ => ?k)) ] =>
      destruct (run_preamble a k) as (t0 & Ht0 & Hk)
  end.
  destruct v as [e|[[|link rest]|]].
  - exists (t0 ++ t). split; [now apply writes_nothing_app|].
    rewrite Hk. unfold bind at 1.
    now rewrite Hv, with_events_app.
  - exists (t0 ++ t ++ (if (1 <=? verbose a)%nat
                        then [Print (MsgFound 0 (username a))] else [])
               ++ [Print (MsgNoLinks (username a))]).
    split.
    { repeat apply writes_nothing_app; trivial.
      now destruct (1 <=? verbose a)%nat. reflexivity. }
    rewrite Hk. unfold bind at 1. rewrite Hv. simpl pack. cbv beta iota.
    unfold bind, when, emit, ret. simpl truthy_links. simpl negb.
    destruct (1 <=? verbose a)%nat; cbv beta iota; unfold with_events; simpl;
      now rewrite <- ?app_assoc.
  - exists (t0 ++ t ++ (if (1 <=? verbose a)%nat
                        then [Print (MsgFound (length (link :: rest)) (username a))]
                        else [])
               ++ [Print MsgStarting; TqdmOpen (length (link :: rest))]).
    split.
    { repeat apply writes_nothing_app; trivial.
      now destruct (1 <=? verbose a)%nat. reflexivity. }
    rewrite Hk. unfold bind at 1. rewrite Hv. simpl pack. cbv beta iota.
    simpl truthy_links. simpl negb. cbv beta iota. simpl default.
    unfold download_all. simpl config_of_args.
    unfold bind, when, emit, ret.
    destruct (1 <=? verbose a)%nat; cbv beta iota; unfold with_events; simpl;
      rewrite <- ?app_assoc; reflexivity.
  - exists (t0 ++ t ++ (if (1 <=? verbose a)%nat then []
                        else [Print (MsgNoLinks (username a))])).
    split.
    { repeat apply writes_nothing_app; trivial.
      now destruct (1 <=? verbose a)%nat. }
    rewrite Hk. unfold bind at 1. rewrite Hv. simpl pack. cbv beta iota.
    unfold bind, when, emit, ret, raise. simpl truthy_links. simpl negb.
    destruct (1 <=? verbose a)%nat; cbv beta iota; unfold with_events; simpl;
      now rewrite <- ?app_assoc, ?app_nil_r.
Qed.

Lemma main_of_run srv schedule a w :
  choices_ok a = true ->
  1 <= parallel_downloads a <= MAX_THREADS ->
  main srv schedule a w
  = match run srv schedule a w with
    | Ok code w' => (code, w')
    | Raise _ w' => (EXIT_TRACEBACK, w')
    end.
Proof.
  intros Hc [Hlo Hhi]. unfold main. rewrite Hc. simpl negb. cbv iota.
  destruct (Z.ltb_spec (parallel_downloads a) 1); [lia|].
  destruct (Z.ltb_spec MAX_THREADS (parallel_downloads a)); [lia|].
  reflexivity.
Qed.

Lemma absent_payload_returns_none srv cfg jar user w :
  get_cookies cfg = inr jar ->
  serve_page srv jar (USER_URL user) = Some NoDiv ->
  get_download_links_for_user srv cfg user w
  = Ok None (with_events w [ Print (MsgRetrieving user);
                             HttpGetPage jar (USER_URL user);
                             Print (MsgNoPagedataUser (USER_URL user)) ]).
Proof.
  intros Hj Hp. unfold get_download_links_for_user, get_page, bind, lift, emit.
  rewrite Hj; simpl. rewrite Hp; simpl.
  unfold with_events. now rewrite <- !app_assoc.
Qed.

(** The loops finish from [w] as they do from a world with the same
    files. *)
Lemma download_all_finishes srv schedule a links w t :
  1 < parallel_downloads a
  \/ value_of (download_each srv (config_of_args a) links w) = inr tt ->
  exists w', download_all srv schedule a links (with_events w t) = Ok tt w'.
Proof.
  intros Hok. unfold download_all.
  destruct (Z.ltb_spec 1 (parallel_downloads a)) as [Hpar|Hseq].
  - apply pool_map_ok.
  - destruct Hok as [Hpar|Hval]; [lia|].
    pose proof (local_value _ w (trace w ++ t)
                  (local_download_each srv (config_of_args a) links)) as Hloc.
    rewrite Hval in Hloc. unfold with_events.
    destruct (download_each srv (config_of_args a) links
                (mk_world (fs w) (trace w ++ t))) as [[] w'|e w'];
      [now exists w' | discriminate Hloc].
Qed.

(** ** C9 *)

(** C9, as the specification words it, fails: at verbosity 0 a profile
    page without the payload ends the run with status 2, the status of
    an empty collection. *)
Lemma absent_payload_exit_is_distinct_fails :
  ~ absent_payload_exit_is_distinct.
Proof.
  intros H.
  destruct (H Sample.srv_nodiv (fun l => l) Sample.args0 Sample.jar0 Sample.w0
              eq_refl) as [_ Hne]; try reflexivity.
  - unfold MAX_THREADS; simpl; lia.
  - apply Hne. reflexivity.
Qed.

(** C9, amended.  The run exits with status 2 when the enumeration
    returns no link at all, and also, at verbosity 0, when the profile
    page lacks the embedded payload, so that the two cases are not told
    apart by the exit status; it exits with status 0 when links were
    found and the downloads ended without an uncaught exception, which
    the pool always does. *)
Theorem exit_status_two_or_zero srv schedule a w :
  choices_ok a = true ->
  1 <= parallel_downloads a <= MAX_THREADS ->
  (value_of (get_download_links_for_user srv (config_of_args a) (username a) w)
   = inr (Some []) ->
   fst (main srv schedule a w) = EXIT_NO_LINKS)
  /\ (forall jar,
        verbose a = 0%nat ->
        get_cookies (config_of_args a) = inr jar ->
        serve_page srv jar (USER_URL (username a)) = Some NoDiv ->
        fst (main srv schedule a w) = EXIT_NO_LINKS)
  /\ (forall links,
        value_of (get_download_links_for_user srv (config_of_args a)
                    (username a) w) = inr (Some links) ->
        links <> [] ->
        1 < parallel_downloads a
        \/ value_of (download_each srv (config_of_args a) links w) = inr tt ->
        fst (main srv schedule a w) = EXIT_OK).
Proof.
  intros Hc Hrange.
  rewrite (main_of_run srv schedule a w Hc Hrange).
  destruct (run_cases srv schedule a w) as (t & _ & Hrun).
  split; [|split].
  - intros Hv. rewrite Hv in Hrun. now rewrite Hrun.
  - intros jar Hverb Hj Hp.
    rewrite (absent_payload_returns_none _ _ _ _ _ Hj Hp) in Hrun.
    simpl in Hrun. rewrite Hverb in Hrun. simpl in Hrun. now rewrite Hrun.
  - intros links Hv Hne Hok. rewrite Hv in Hrun.
    destruct links as [|link rest]; [contradiction|].
    rewrite Hrun. unfold bind at 1.
    destruct (download_all_finishes srv schedule a (link :: rest) w t Hok)
      as (w' & ->).
    reflexivity.
Qed.

Lemma exit_status_two_or_zero_witness :
  fst (main Sample.srv_empty (fun l => l) Sample.args0 Sample.w0)
  = EXIT_NO_LINKS
  /\ fst (main Sample.srv_nodiv (fun l => l) Sample.args0 Sample.w0)
     = EXIT_NO_LINKS
  /\ fst (main Sample.srv_fine (fun l => l) Sample.args0 Sample.w0) = EXIT_OK.
Proof.
  assert (Hrange : 1 <= parallel_downloads Sample.args0 <= MAX_THREADS)
    by (unfold MAX_THREADS; simpl; lia).
  split; [|split].
  - apply (exit_status_two_or_zero Sample.srv_empty (fun l => l) Sample.args0
             Sample.w0 eq_refl Hrange).
    reflexivity.
  - apply (exit_status_two_or_zero Sample.srv_nodiv (fun l => l) Sample.args0
             Sample.w0 eq_refl Hrange) with (jar := Sample.jar0);
      reflexivity.
  - apply (exit_status_two_or_zero Sample.srv_fine (fun l => l) Sample.args0
             Sample.w0 eq_refl Hrange)
      with (links := [JStr Sample.album1; JStr Sample.album2]).
    + reflexivity.
    + discriminate.
    + right. reflexivity.
Defined.

(** * Running twice *)

Lemma planned_bind srv cfg {A} (m : M A) (k : A -> M unit) :
  fileless m -> (forall a, planned srv cfg (k a)) -> planned srv cfg (bind m k).
Proof.
  intros (v & t & Ht & Hm) Hk. destruct v as [e|a].
  - left. exists (inl e), t. split; [exact Ht|].
    intros w. unfold bind. now rewrite Hm.
  - destruct (Hk a) as [(v' & t' & Ht' & Hk')
                       |(response & path & t' & Hl & Ht' & Hk')].
    + left. exists v', (t ++ t'). split; [now apply writes_nothing_app|].
      intros w. unfold bind. rewrite Hm. simpl.
      now rewrite Hk', with_events_app.
    + right. exists response, path, (t ++ t').
      split; [exact Hl|]. split; [now apply writes_nothing_app|].
      intros w. unfold bind. rewrite Hm. simpl.
      now rewrite Hk', with_events_app.
Qed.

Lemma planned_bind_value srv cfg {A} (a : A) (k : A -> M unit) :
  planned srv cfg (k a) -> planned srv cfg (bind (lift (inr a)) k).
Proof. intros H. exact H. Qed.

Lemma planned_bind_raise srv cfg {A} (e : exn) (k : A -> M unit) :
  planned srv cfg (bind (lift (inl e)) k).
Proof. left. exact (fileless_raise e). Qed.

Lemma planned_raise srv cfg (e : exn) : planned srv cfg (raise e).
Proof. left. apply fileless_raise. Qed.

Lemma planned_download_file srv cfg url to :
  planned srv cfg (download_file srv cfg url to).
Proof.
  unfold download_file.
  apply planned_bind; [apply fileless_lift | intros jar].
  destruct url as [| | |u| |]; try apply planned_raise.
  apply planned_bind; [apply fileless_emit; reflexivity | intros _].
  destruct (serve_file srv jar u) as [response|] eqn:Hs;
    [|apply planned_raise].
  destruct (status_raises (file_status response)) eqn:Hst.
  { left. exact (fileless_raise HTTPError). }
  apply planned_bind; [apply fileless_ret | intros _].
  destruct (header_get "content-disposition" (file_headers response))
    as [d|] eqn:Hd; [|apply planned_bind_raise].
  apply planned_bind_value. cbv zeta.
  destruct to as [| | |dir| |]; try apply planned_bind_raise.
  apply planned_bind_value.
  right. exists response, (destination cfg u d dir), [].
  split; [now exists jar, u, d, dir|]. split; [reflexivity|].
  intros w. now rewrite with_events_nil.
Qed.

Ltac planned_step :=
  match goal with
  | |- planned _ _ (download_file _ _ _ _) => apply planned_download_file
  | |- planned _ _ (bind _ _) =>
      apply planned_bind;
      [ first [ apply fileless_get_page | solve [ auto with fileless_db ] ]
      | intros ]
  | |- planned _ _ (match ?x with _ => _ end) => destruct x
  | |- planned _ _ _ => left; solve [ auto with fileless_db ]
  end.

Lemma planned_download_album srv cfg link :
  planned srv cfg (download_album srv cfg link).
Proof. unfold download_album. repeat planned_step. Qed.

(** ** What an album fetches *)

Lemma ends_as_raise srv cfg {A} (e : exn) (k : A -> M unit) :
  ends_as srv cfg None (bind (lift (inl e)) k).
Proof. exact (fileless_raise e). Qed.

Lemma ends_as_value srv cfg plan {A} (a : A) (k : A -> M unit) :
  ends_as srv cfg plan (k a) -> ends_as srv cfg plan (bind (lift (inr a)) k).
Proof. intros H. exact H. Qed.

Lemma ends_as_after srv cfg plan {A} (m : M A) (k : A -> M unit) a t :
  writes_nothing t ->
  (forall w, m w = Ok a (with_events w t)) ->
  ends_as srv cfg plan (k a) -> ends_as srv cfg plan (bind m k).
Proof.
  intros Ht Hm. destruct plan as [[response path]|]; simpl.
  - intros (t' & Ht' & Hk). exists (t ++ t').
    split; [now apply writes_nothing_app|].
    intros w. unfold bind. rewrite Hm. now rewrite Hk, with_events_app.
  - intros (v & t' & Ht' & Hk). exists v, (t ++ t').
    split; [now apply writes_nothing_app|].
    intros w. unfold bind. rewrite Hm. now rewrite Hk, with_events_app.
Qed.

Lemma ends_as_failed srv cfg {A} (m : M A) (k : A -> M unit) e t :
  writes_nothing t ->
  (forall w, m w = Raise e (with_events w t)) ->
  ends_as srv cfg None (bind m k).
Proof.
  intros Ht Hm. exists (inl e), t. split; [exact Ht|].
  intros w. unfold bind. now rewrite Hm.
Qed.

(** One [lift] of a plan: an error ends it, a value goes on. *)
Ltac plan_lift :=
  match goal with
  | |- ends_as _ _ _ (bind (lift ?r) _) =>
      destruct r; [ exact (ends_as_raise _ _ _ _) | apply ends_as_value ]
  end.

(** [download_file] is [store] of the answer planned for it, and touches
    no file when there is none. *)
Lemma file_follows_plan srv cfg url to :
  ends_as srv cfg (file_plan srv cfg url to) (download_file srv cfg url to).
Proof.
  unfold file_plan, download_file.
  plan_lift.
  destruct url as [| | |u| |]; try exact (fileless_raise RequestException).
  apply (ends_as_after srv cfg _ _ _ tt [HttpGetFile c u]);
    [reflexivity | intros w; reflexivity |].
  destruct (serve_file srv c u) as [response|];
    [|exact (fileless_raise RequestException)].
  destruct (status_raises (file_status response)).
  { exact (ends_as_raise srv cfg HTTPError _). }
  apply (ends_as_value srv cfg _ tt).
  destruct (header_get "content-disposition" (file_headers response)) as [d|];
    [|exact (ends_as_raise srv cfg KeyError _)].
  apply ends_as_value. cbv zeta.
  destruct to as [| | |dir| |]; try exact (ends_as_raise srv cfg TypeError _).
  apply ends_as_value.
  exists []. split; [reflexivity|]. intros w. now rewrite with_events_nil.
Qed.

Lemma get_page_runs srv cfg jar u w :
  get_cookies cfg = inr jar ->
  get_page srv cfg (JStr u) w
  = pack (match serve_page srv jar u with
          | Some p => inr p
          | None => inl RequestException
          end)
      (with_events w [HttpGetPage jar u]).
Proof.
  intros Hj. unfold get_page, bind, lift, emit. rewrite Hj. simpl.
  now destruct (serve_page srv jar u).
Qed.

(** [download_album] is [store] of the answer planned for the album, and
    touches no file when there is none. *)
Lemma album_follows_plan srv cfg link :
  ends_as srv cfg (fetch_plan srv cfg link) (download_album srv cfg link).
Proof.
  unfold fetch_plan, download_album.
  destruct (get_cookies cfg) as [e|jar] eqn:Hj.
  { apply (ends_as_failed srv cfg _ _ e []); [reflexivity|].
    intros w. unfold get_page, bind, lift. rewrite Hj. simpl.
    now rewrite with_events_nil. }
  destruct link as [| | |u| |];
    try (apply (ends_as_failed srv cfg _ _ RequestException []);
         [reflexivity|];
         intros w; unfold get_page, bind, lift; rewrite Hj; simpl;
         now rewrite with_events_nil).
  destruct (serve_page srv jar u) as [p|] eqn:Hp.
  2:{ apply (ends_as_failed srv cfg _ _ RequestException [HttpGetPage jar u]);
        [reflexivity|].
      intros w. now rewrite (get_page_runs srv cfg jar u w Hj), Hp. }
  apply (ends_as_after srv cfg _ _ _ p [HttpGetPage jar u]);
    [reflexivity | intros w; now rewrite (get_page_runs srv cfg jar u w Hj), Hp |].
  destruct p as [| | |data].
  - simpl. repeat fileless_step.
  - exact (ends_as_raise srv cfg TypeError _).
  - exact (ends_as_raise srv cfg JSONDecodeError _).
  - apply (ends_as_value srv cfg _ data).
    do 3 plan_lift.
    destruct (contains (FORMAT cfg) j1) as [e|[|]].
    + exact (ends_as_raise srv cfg e _).
    + apply (ends_as_value srv cfg _ true). simpl negb. cbv iota.
      apply ends_as_value. do 2 plan_lift.
      apply file_follows_plan.
    + apply (ends_as_value srv cfg _ false). simpl. repeat fileless_step.
Qed.

(** ** What [store] leaves behind *)

Lemma save_fs srv cfg response path w :
  fs (final_world (save srv cfg response path w)) = fs w
  \/ (write_error srv (fs w) path = None
      /\ fs (final_world (save srv cfg response path w))
         = <[path := file_body response]> (fs w)).
Proof.
  rewrite save_runs. destruct (write_error srv (fs w) path); [now left|].
  right. split; [reflexivity|]. unfold stream_result.
  now destruct (file_stream_ok response).
Qed.

(** [store] leaves the files as they are or writes the body at its
    path, which the operating system then accepted. *)
Lemma store_fs srv cfg response path w :
  fs (final_world (store srv cfg response path w)) = fs w
  \/ (write_error srv (fs w) path = None
      /\ fs (final_world (store srv cfg response path w))
         = <[path := file_body response]> (fs w)).
Proof.
  destruct (FORCE cfg) eqn:Hf.
  - rewrite store_forced by assumption.
    exact (save_fs srv cfg response path (with_events w _)).
  - rewrite store_unforced by assumption.
    destruct (exists_at srv (fs w) path); [|apply save_fs].
    destruct (content_length response) as [e|n]; [now left|].
    destruct (n =? size_at srv (fs w) path); [now left|].
    exact (save_fs srv cfg response path (with_events w _)).
Qed.

(** Without [FORCE] and with an honest length, [store] leaves its path
    such that it will not write there again, and such that it skips
    when it returned. *)
Lemma store_leaves srv cfg response path w :
  FORCE cfg = false ->
  declares_its_length response ->
  quiet srv response (fs (final_world (store srv cfg response path w))) path
  /\ forall w',
       store srv cfg response path w = Ok tt w' ->
       skips srv response (fs w') path.
Proof.
  intros Hf Hlen. unfold declares_its_length in Hlen.
  assert (Hsave : forall w1,
             fs w1 = fs w ->
             quiet srv response
               (fs (final_world (save srv cfg response path w1))) path
             /\ forall w',
                  save srv cfg response path w1 = Ok tt w' ->
                  skips srv response (fs w') path).
  { intros w1 Hw1. rewrite save_runs, Hw1.
    destruct (write_error srv (fs w) path) as [e|] eqn:He.
    - simpl. rewrite Hw1. split; [right; congruence | discriminate].
    - assert (Hsk : skips srv response
                      (<[path := file_body response]> (fs w)) path).
      { split; [apply exists_at_written | now rewrite size_at_written]. }
      unfold stream_result. destruct (file_stream_ok response); simpl.
      + split; [now left|]. intros w' Hok. now inversion Hok; subst.
      + split; [now left | discriminate]. }
  rewrite store_unforced by assumption. rewrite Hlen.
  destruct (exists_at srv (fs w) path) eqn:Hex; [|now apply Hsave].
  destruct (Z.eqb_spec (Z.of_nat (String.length (file_body response)))
              (size_at srv (fs w) path)) as [Heq|Hne];
    [|now apply Hsave].
  assert (Hsk : skips srv response (fs w) path)
    by (split; [exact Hex | now rewrite Hlen, Heq]).
  simpl. split; [now left|]. intros w' Hok. now inversion Hok; subst.
Qed.

(** What is skipped stays skipped when a file of the same length is
    written, there or elsewhere. *)
Lemma skips_kept srv response path files q c :
  skips srv response files path ->
  (q = path -> content_length response = inr (Z.of_nat (String.length c))) ->
  skips srv response (<[q := c]> files) path.
Proof.
  intros [Hex Hlen] Hsame. destruct (decide (q = path)) as [->|Hne].
  - split; [apply exists_at_written | rewrite size_at_written; now apply Hsame].
  - split; [now apply exists_at_insert | now rewrite size_at_insert_ne].
Qed.

Lemma quiet_kept srv response path files q c :
  quiet srv response files path ->
  (q = path -> content_length response = inr (Z.of_nat (String.length c))) ->
  quiet srv response (<[q := c]> files) path.
Proof.
  intros [Hs|Hr] Hsame.
  - left. now apply skips_kept.
  - right. now apply write_error_insert.
Qed.

(** Where [store] skips it returns, touching no file. *)
Lemma skips_store srv cfg response path w :
  FORCE cfg = false ->
  skips srv response (fs w) path ->
  store srv cfg response path w
  = Ok tt (with_events w
             ((if (3 <=? VERBOSE cfg)%nat
               then [TqdmWrite (MsgSkipping path)] else [])
              ++ [TqdmUpdate])).
Proof.
  intros Hf [Hex Hlen]. rewrite store_unforced by assumption.
  now rewrite Hex, Hlen, Z.eqb_refl.
Qed.

Lemma writes_nothing_skip cfg path :
  writes_nothing
    ((if (3 <=? VERBOSE cfg)%nat then [TqdmWrite (MsgSkipping path)] else [])
     ++ [TqdmUpdate]).
Proof. now destruct (3 <=? VERBOSE cfg)%nat. Qed.

(** Where [store] is quiet it opens no file for writing. *)
Lemma quiet_store srv cfg response path w :
  FORCE cfg = false ->
  quiet srv response (fs w) path ->
  exists v t,
    writes_nothing t
    /\ store srv cfg response path w = pack v (with_events w t).
Proof.
  intros Hf [Hs|Hr].
  { exists (inr tt). eexists. split; [apply (writes_nothing_skip cfg path)|].
    now rewrite skips_store. }
  assert (Hsave : forall t,
             writes_nothing t ->
             exists v t',
               writes_nothing t'
               /\ save srv cfg response path (with_events w t)
                  = pack v (with_events w t')).
  { intros t Ht. rewrite save_runs.
    change (fs (with_events w t)) with (fs w).
    destruct (write_error srv (fs w) path) as [e|]; [|contradiction].
    exists (inl e). eexists.
    split; [|cbn [pack]; now rewrite with_events_app].
    apply writes_nothing_app; [exact Ht|].
    now destruct (2 <=? VERBOSE cfg)%nat. }
  rewrite store_unforced by assumption.
  destruct (exists_at srv (fs w) path).
  - destruct (content_length response) as [e|n].
    { exists (inl e), []. split; [reflexivity|].
      simpl. now rewrite with_events_nil. }
    destruct (n =? size_at srv (fs w) path).
    + exists (inr tt). eexists.
      split; [apply (writes_nothing_skip cfg path) | reflexivity].
    + apply Hsave. now destruct (2 <=? VERBOSE cfg)%nat.
  - destruct (Hsave [] eq_refl) as (v & t' & Ht' & Hrun).
    rewrite with_events_nil in Hrun. now exists v, t'.
Qed.

Section Settling.

Variable srv : server.
Variable cfg : config.

(** The albums of the run. *)
Variable links : list json.

Hypothesis no_force : FORCE cfg = false.

Hypothesis honest :
  forall link response path,
    In link links ->
    fetch_plan srv cfg link = Some (response, path) ->
    declares_its_length response.

Hypothesis no_clash :
  forall link1 link2 r1 r2 path,
    In link1 links -> In link2 links ->
    fetch_plan srv cfg link1 = Some (r1, path) ->
    fetch_plan srv cfg link2 = Some (r2, path) ->
    String.length (file_body r1) = String.length (file_body r2).

(** What another album of the run fetches for the path just written has
    the length that was written. *)
Lemma same_length link other response r0 path :
  In link links -> In other links ->
  fetch_plan srv cfg link = Some (response, path) ->
  fetch_plan srv cfg other = Some (r0, path) ->
  content_length r0 = inr (Z.of_nat (String.length (file_body response))).
Proof.
  intros Hin Hino Hfp H0.
  rewrite (honest other r0 path Hino H0).
  now rewrite (no_clash other link r0 response path Hino Hin H0 Hfp).
Qed.

(** An album leaves its own file settled, done when it returned, and
    the files of the others as they were in these respects. *)
Lemma album_settles link w :
  In link links ->
  settled srv cfg (fs (final_world (download_album srv cfg link w))) link
  /\ (forall w',
        download_album srv cfg link w = Ok tt w' ->
        done srv cfg (fs w') link)
  /\ forall other,
       In other links ->
       (settled srv cfg (fs w) other ->
        settled srv cfg (fs (final_world (download_album srv cfg link w)))
          other)
       /\ (done srv cfg (fs w) other ->
           done srv cfg (fs (final_world (download_album srv cfg link w)))
             other).
Proof.
  intros Hin. pose proof (album_follows_plan srv cfg link) as Hplan.
  destruct (fetch_plan srv cfg link) as [[response path]|] eqn:Hfp;
    simpl in Hplan.
  - destruct Hplan as (t & Ht & Hrun). rewrite Hrun.
    destruct (store_leaves srv cfg response path (with_events w t) no_force
                (honest link response path Hin Hfp)) as [Hq Hs].
    split.
    { intros r0 p0 H0. rewrite Hfp in H0. now injection H0 as <- <-. }
    split.
    { intros w' Hok r0 p0 H0. rewrite Hfp in H0. injection H0 as <- <-.
      now apply Hs. }
    intros other Hino.
    destruct (store_fs srv cfg response path (with_events w t))
      as [Hsame|[_ Hnew]].
    + rewrite Hsame. simpl. now split.
    + rewrite Hnew. simpl. split; intros Hother r0 p0 H0.
      * apply quiet_kept; [now apply Hother|]. intros ->.
        exact (same_length link other response r0 _ Hin Hino Hfp H0).
      * apply skips_kept; [now apply Hother|]. intros ->.
        exact (same_length link other response r0 _ Hin Hino Hfp H0).
  - destruct Hplan as (v & t & Ht & Hrun). rewrite Hrun, final_world_pack.
    split; [intros r0 p0 H0; congruence|].
    split; [intros w' _ r0 p0 H0; congruence|].
    intros other _. now split.
Qed.

Lemma pool_settles order :
  (forall link, In link order -> In link links) ->
  forall w,
    (forall link,
        In link order ->
        settled srv cfg (fs (final_world (pool_map srv cfg order w))) link)
    /\ (forall other,
          In other links ->
          settled srv cfg (fs w) other ->
          settled srv cfg (fs (final_world (pool_map srv cfg order w))) other).
Proof.
  induction order as [|first rest IH]; intros Hsub w; simpl.
  - split; [intros link [] | trivial].
  - destruct (album_settles first w (Hsub first (or_introl eq_refl)))
      as (Hown & _ & Hkeep).
    destruct (IH (fun l H => Hsub l (or_intror H))
                (final_world (download_album srv cfg first w)))
      as [Hrest Hkeep'].
    split.
    + intros link [<-|Hin];
        [apply Hkeep'; [now apply Hsub; left | exact Hown] | now apply Hrest].
    + intros other Hino Hother. apply Hkeep'; [exact Hino|].
      now apply (Hkeep other Hino).
Qed.

Lemma each_settles order :
  (forall link, In link order -> In link links) ->
  forall w w',
    download_each srv cfg order w = Ok tt w' ->
    (forall link, In link order -> done srv cfg (fs w') link)
    /\ (forall other,
          In other links ->
          done srv cfg (fs w) other -> done srv cfg (fs w') other).
Proof.
  induction order as [|first rest IH]; intros Hsub w w' Hrun; simpl in Hrun.
  - unfold ret in Hrun. inversion Hrun; subst.
    split; [intros link [] | trivial].
  - unfold bind in Hrun.
    destruct (album_settles first w (Hsub first (or_introl eq_refl)))
      as (_ & Hown & Hkeep).
    destruct (download_album srv cfg first w) as [[] w1|e w1];
      [|discriminate Hrun].
    simpl in Hkeep. specialize (Hown w1 eq_refl).
    destruct (IH (fun l H => Hsub l (or_intror H)) w1 w' Hrun)
      as [Hrest Hkeep'].
    split.
    + intros link [<-|Hin];
        [apply Hkeep'; [now apply Hsub; left | exact Hown] | now apply Hrest].
    + intros other Hino Hother. apply Hkeep'; [exact Hino|].
      now apply (Hkeep other Hino).
Qed.

(** On settled files an album opens none for writing. *)
Lemma settled_album_quiet link w :
  settled srv cfg (fs w) link ->
  exists v t,
    writes_nothing t
    /\ download_album srv cfg link w = pack v (with_events w t).
Proof.
  intros Hs. pose proof (album_follows_plan srv cfg link) as Hplan.
  destruct (fetch_plan srv cfg link) as [[response path]|] eqn:Hfp;
    simpl in Hplan.
  - destruct Hplan as (t & Ht & Hrun).
    destruct (quiet_store srv cfg response path (with_events w t) no_force
                (Hs response path Hfp)) as (v & t' & Ht' & Hstore).
    exists v, (t ++ t'). split; [now apply writes_nothing_app|].
    now rewrite Hrun, Hstore, with_events_app.
  - destruct Hplan as (v & t & Ht & Hrun). now exists v, t.
Qed.

(** Where its file is done, an album that returned once returns again. *)
Lemma done_album_returns link w w1 w1' :
  done srv cfg (fs w) link ->
  download_album srv cfg link w1 = Ok tt w1' ->
  exists t,
    writes_nothing t
    /\ download_album srv cfg link w = Ok tt (with_events w t).
Proof.
  intros Hd Hok. pose proof (album_follows_plan srv cfg link) as Hplan.
  destruct (fetch_plan srv cfg link) as [[response path]|] eqn:Hfp;
    simpl in Hplan.
  - destruct Hplan as (t & Ht & Hrun). eexists. split.
    2:{ rewrite Hrun.
        rewrite (skips_store srv cfg response path (with_events w t) no_force
                   (Hd response path Hfp)).
        now rewrite with_events_app. }
    apply writes_nothing_app; [exact Ht | apply writes_nothing_skip].
  - destruct Hplan as (v & t & Ht & Hrun). exists t. split; [exact Ht|].
    rewrite Hrun in Hok. rewrite Hrun.
    destruct v as [e|[]]; [discriminate Hok | reflexivity].
Qed.

Lemma settled_pool_quiet order :
  forall w,
    (forall link, In link order -> settled srv cfg (fs w) link) ->
    exists t,
      writes_nothing t /\ pool_map srv cfg order w = Ok tt (with_events w t).
Proof.
  induction order as [|first rest IH]; intros w Hall; simpl.
  - exists []. split; [reflexivity | now rewrite with_events_nil].
  - destruct (settled_album_quiet first w (Hall first (or_introl eq_refl)))
      as (v & t1 & Ht1 & Hrun).
    rewrite Hrun, final_world_pack.
    destruct (IH (with_events w t1)) as (t2 & Ht2 & Hrest).
    { intros link Hin. now apply Hall; right. }
    exists (t1 ++ t2). split; [now apply writes_nothing_app|].
    now rewrite Hrest, with_events_app.
Qed.

Lemma done_each_returns order :
  forall w1 w1',
    download_each srv cfg order w1 = Ok tt w1' ->
    forall w,
      (forall link, In link order -> done srv cfg (fs w) link) ->
      exists t,
        writes_nothing t
        /\ download_each srv cfg order w = Ok tt (with_events w t).
Proof.
  induction order as [|first rest IH]; intros w1 w1' Hfirst w Hall; simpl.
  - exists []. split; [reflexivity|]. unfold ret. now rewrite with_events_nil.
  - simpl in Hfirst. unfold bind in Hfirst.
    destruct (download_album srv cfg first w1) as [[] w1''|e w1''] eqn:Hone;
      [|discriminate Hfirst].
    destruct (done_album_returns first w w1 w1''
                (Hall first (or_introl eq_refl)) Hone)
      as (t1 & Ht1 & Hrun).
    destruct (IH w1'' w1' Hfirst (with_events w t1)) as (t2 & Ht2 & Hrest).
    { intros link Hin. now apply Hall; right. }
    exists (t1 ++ t2). split; [now apply writes_nothing_app|].
    unfold bind. rewrite Hrun. simpl.
    now rewrite Hrest, with_events_app.
Qed.

End Settling.

(** What a run that exits with status 0 went through. *)
Lemma first_run_ok srv schedule a w :
  fst (main srv schedule a w) = EXIT_OK ->
  choices_ok a = true
  /\ 1 <= parallel_downloads a <= MAX_THREADS
  /\ exists links t wl,
       value_of (get_download_links_for_user srv (config_of_args a)
                   (username a) w) = inr (Some links)
       /\ links <> []
       /\ download_all srv schedule a links (with_events w t) = Ok tt wl
       /\ fs (snd (main srv schedule a w)) = fs wl.
Proof.
  unfold main.
  destruct (choices_ok a); simpl negb; cbv iota; [|discriminate].
  destruct (Z.ltb_spec (parallel_downloads a) 1) as [|Hlo];
    simpl orb; cbv iota; [discriminate|].
  destruct (Z.ltb_spec MAX_THREADS (parallel_downloads a)) as [|Hhi];
    cbv iota; [discriminate|].
  intros Hexit. split; [reflexivity|]. split; [lia|].
  destruct (run_cases srv schedule a w) as (t & _ & Hrun).
  destruct (value_of (get_download_links_for_user srv (config_of_args a)
                        (username a) w)) as [e|[[|link rest]|]].
  - rewrite Hrun in Hexit. discriminate Hexit.
  - rewrite Hrun in Hexit. discriminate Hexit.
  - exists (link :: rest), t. rewrite Hrun. rewrite Hrun in Hexit.
    unfold bind at 1. unfold bind at 1 in Hexit.
    destruct (download_all srv schedule a (link :: rest) (with_events w t))
      as [[] wl|e wl]; [|discriminate Hexit].
    exists wl. split; [reflexivity|]. split; [discriminate|].
    split; reflexivity.
  - rewrite Hrun in Hexit.
    destruct (1 <=? verbose a)%nat; discriminate Hexit.
Qed.

(** ** C5 *)


(** The reading of the second half that the amended statement keeps:
    two artists whose files have the same name and different lengths,
    each declaring its own; the second run writes nothing. *)
Example second_run_on_equal_names :
  main Sample2.srv_same_name (fun l => l) Sample.args0
    (mk_world (fs (snd (main Sample2.srv_same_name (fun l => l) Sample.args0
                          Sample.w0))) [])
  = (EXIT_OK,
     mk_world
       {[ "/music/Ann/Album.flac"%string := "hello"%string;
          "/music/Bob/Album.flac"%string := "abc"%string ]}
       [ Print (MsgRetrieving "fan");
         HttpGetPage Sample.jar0 (USER_URL "fan");
         HttpPost Sample.jar0 COLLECTION_POST_URL
           (JObj [ ("fan_id", JNum 42); ("count", JNum 1);
                   ("older_than_token", JStr "1700000000:1:a::") ]);
         Print MsgStarting; TqdmOpen 2;
         HttpGetPage Sample.jar0 Sample.album1;
         HttpGetFile Sample.jar0 Sample.file1; TqdmUpdate;
         HttpGetPage Sample.jar0 Sample.album2;
         HttpGetFile Sample.jar0 Sample.file2; TqdmUpdate;
         TqdmClose; Print MsgDone ]).
Proof. vm_compute. reflexivity. Qed.

(** Honest lengths are not enough: two albums of one artist whose files
    have the same name and different lengths go to one path, and the
    second run writes there again. *)
Example second_run_on_a_shared_path :
  fst (main Sample2.srv_clash (fun l => l) Sample.args0 Sample.w0) = EXIT_OK
  /\ In (OpenWrite "/music/Ann/Album.flac")
       (trace (snd (main Sample2.srv_clash (fun l => l) Sample.args0
                      (mk_world
                         (fs (snd (main Sample2.srv_clash (fun l => l)
                                     Sample.args0 Sample.w0))) [])))).
Proof. vm_compute. tauto. Qed.



(** * Further properties of the script *)

(** ** Cookies *)

(** [get_cookies] returns the jar of the configured browser for each of
    the six supported browsers and raises for any other name. *)
Theorem get_cookies_by_browser cfg :
  (In (BROWSER cfg) SUPPORTED_BROWSERS ->
   get_cookies cfg = inr (Jar (BROWSER cfg)))
  /\ (~ In (BROWSER cfg) SUPPORTED_BROWSERS ->
      get_cookies cfg = inl UnknownBrowser).
Proof.
  unfold get_cookies, SUPPORTED_BROWSERS. split.
  - intros [H|[H|[H|[H|[H|[H|[]]]]]]]; rewrite <- H; reflexivity.
  - intros Hno.
    repeat match goal with
           | |- context [String.eqb (BROWSER cfg) ?b] =>
               destruct (String.eqb_spec (BROWSER cfg) b) as [Heq|_];
               [exfalso; apply Hno; rewrite Heq; simpl; tauto|]
           end.
    reflexivity.
Qed.

(** X1.  Once [parse_args] has accepted the command line, [get_cookies]
    cannot raise. *)
Theorem accepted_browser_has_cookies a :
  choices_ok a = true ->
  get_cookies (config_of_args a) = inr (Jar (browser a)).
Proof.
  intros Hc. unfold choices_ok in Hc. apply andb_true_iff in Hc as [Hb _].
  apply existsb_exists in Hb as (b & Hin & Heq).
  apply String.eqb_eq in Heq. subst b.
  now apply (get_cookies_by_browser (config_of_args a)).
Qed.

Lemma accepted_browser_has_cookies_witness :
  get_cookies (config_of_args Sample.args0) = inr (Jar (browser Sample.args0)).
Proof.
  apply (accepted_browser_has_cookies Sample.args0). reflexivity.
Defined.

(** ** Exit status *)

(** X2.  With [-v] a profile page without the page-data element ends the run
    with a traceback: [len(links)] is applied to [None] before the test
    that would have printed the warning and exited with 2. *)
Theorem verbose_absent_payload_traceback srv schedule a jar w :
  choices_ok a = true ->
  1 <= parallel_downloads a <= MAX_THREADS ->
  (1 <= verbose a)%nat ->
  get_cookies (config_of_args a) = inr jar ->
  serve_page srv jar (USER_URL (username a)) = Some NoDiv ->
  main srv schedule a w
  = (EXIT_TRACEBACK,
     with_events w
       ([Print (MsgArgs a)]
        ++ (if force a then [Print MsgForceFlag] else [])
        ++ [ Print (MsgRetrieving (username a));
             HttpGetPage jar (USER_URL (username a));
             Print (MsgNoPagedataUser (USER_URL (username a))) ])).
Proof.
  intros Hc Hrange Hv Hj Hp.
  assert (Hleb : (1 <=? verbose a)%nat = true) by now apply Nat.leb_le.
  rewrite (main_of_run _ _ _ _ Hc Hrange).
  unfold run. simpl VERBOSE. simpl FORCE. rewrite Hleb.
  unfold bind at 1. unfold when at 1, emit at 1.
  unfold bind at 1. unfold when at 1.
  unfold bind at 1.
  destruct (force a); unfold emit at 1, ret at 1; cbv beta iota;
    rewrite (absent_payload_returns_none _ _ _ _ _ Hj Hp);
    unfold bind, when, raise, with_events; simpl;
    now rewrite <- ?app_assoc.
Qed.

Lemma verbose_absent_payload_traceback_witness :
  main Sample.srv_nodiv (fun l => l) Sample2.args_verbose Sample.w0
  = (EXIT_TRACEBACK,
     with_events Sample.w0
       ([Print (MsgArgs Sample2.args_verbose)]
        ++ (if force Sample2.args_verbose then [Print MsgForceFlag] else [])
        ++ [ Print (MsgRetrieving "fan");
             HttpGetPage Sample.jar0 (USER_URL "fan");
             Print (MsgNoPagedataUser (USER_URL "fan")) ])).
Proof.
  apply (verbose_absent_payload_traceback Sample.srv_nodiv (fun l => l)
           Sample2.args_verbose Sample.jar0 Sample.w0).
  - reflexivity.
  - unfold MAX_THREADS; simpl; lia.
  - simpl; lia.
  - reflexivity.
  - reflexivity.
Defined.

(** X3.  A run that exits with status 2 (a refused command line, or no link
    found) has left the file system as it was and opened no file for
    writing. *)
Theorem exit_two_leaves_files srv schedule a w :
  fst (main srv schedule a w) = EXIT_NO_LINKS ->
  exists t,
    snd (main srv schedule a w) = with_events w t
    /\ forall p, ~ In (OpenWrite p) t.
Proof.
  unfold main.
  destruct (choices_ok a); simpl negb; cbv iota.
  2:{ intros _. exists []. split; [now rewrite with_events_nil | intros p []]. }
  destruct ((parallel_downloads a <? 1) || (MAX_THREADS <? parallel_downloads a)).
  { intros _. exists []. split; [now rewrite with_events_nil | intros p []]. }
  destruct (run_cases srv schedule a w) as (t & Ht & Hrun).
  destruct (value_of (get_download_links_for_user srv (config_of_args a)
                        (username a) w)) as [e|[[|link rest]|]];
    rewrite Hrun.
  - discriminate.
  - intros _. exists t. split; [reflexivity | now apply writes_nothing_In].
  - unfold bind at 1.
    destruct (download_all srv schedule a (link :: rest) (with_events w t));
      discriminate.
  - destruct (1 <=? verbose a)%nat; [discriminate|].
    intros _. exists t. split; [reflexivity | now apply writes_nothing_In].
Qed.

Lemma exit_two_leaves_files_witness :
  exists t,
    snd (main Sample.srv_empty (fun l => l) Sample.args0 Sample2.w_one)
    = with_events Sample2.w_one t
    /\ forall p, ~ In (OpenWrite p) t.
Proof.
  apply (exit_two_leaves_files Sample.srv_empty (fun l => l) Sample.args0
           Sample2.w_one).
  reflexivity.
Defined.

(** ** What a fetch does to the files *)

(** [store] raises either for the stream or before any write. *)
Lemma store_raise srv cfg response path w e w' :
  store srv cfg response path w = Raise e w' ->
  e = StreamError \/ fs w' = fs w.
Proof.
  assert (Hsave : forall w1,
             fs w1 = fs w ->
             save srv cfg response path w1 = Raise e w' ->
             e = StreamError \/ fs w' = fs w).
  { intros w1 Hw1. rewrite save_runs.
    destruct (write_error srv (fs w1) path).
    - intros [= _ <-]. now right.
    - unfold stream_result. destruct (file_stream_ok response); [discriminate|].
      intros [= <- _]. now left. }
  destruct (FORCE cfg) eqn:Hf.
  - rewrite store_forced by exact Hf. now apply Hsave.
  - rewrite store_unforced by exact Hf.
    destruct (exists_at srv (fs w) path); [|now apply Hsave].
    destruct (content_length response) as [e0|n].
    { intros [= _ <-]. now right. }
    destruct (n =? size_at srv (fs w) path); [discriminate|].
    now apply Hsave.
Qed.

(** X4.  An album that fails for anything but a broken stream has changed no
    file: a refused request, an error status, a missing header or key
    are all raised before the first write. *)
Theorem failed_album_leaves_files srv cfg link w e w' :
  download_album srv cfg link w = Raise e w' ->
  e <> StreamError ->
  fs w' = fs w.
Proof.
  intros Hrun Hne.
  destruct (planned_download_album srv cfg link)
    as [(v & t & _ & Hm)|(response & path & t & _ & _ & Hm)];
    rewrite Hm in Hrun.
  - destruct v; inversion Hrun; reflexivity.
  - destruct (store_raise _ _ _ _ _ _ _ Hrun) as [->|Hfs];
      [contradiction | exact Hfs].
Qed.

Lemma failed_album_leaves_files_witness :
  exists w',
    download_album Sample.srv_404 Sample.cfg0 (JStr Sample.album1)
      Sample2.w_one = Raise HTTPError w'
    /\ fs w' = fs Sample2.w_one.
Proof.
  eexists. split; [reflexivity|].
  apply (failed_album_leaves_files Sample.srv_404 Sample.cfg0
           (JStr Sample.album1) Sample2.w_one HTTPError).
  - reflexivity.
  - discriminate.
Defined.

(** Whatever an album does, a path is afterwards as it was or holds the
    body of an answer of the server stored there. *)
Lemma album_fs srv cfg link w :
  fs (final_world (download_album srv cfg link w)) = fs w
  \/ exists response path,
       lands srv cfg response path
       /\ fs (final_world (download_album srv cfg link w))
          = <[path := file_body response]> (fs w).
Proof.
  destruct (planned_download_album srv cfg link)
    as [(v & t & _ & Hm)|(response & path & t & Hl & _ & Hm)];
    rewrite Hm.
  - left. now rewrite final_world_pack.
  - destruct (store_fs srv cfg response path (with_events w t)) as [H|[_ H]].
    + now left.
    + right. now exists response, path.
Qed.

Lemma album_keeps_files srv cfg link w p :
  is_Some (fs w !! p) ->
  is_Some (fs (final_world (download_album srv cfg link w)) !! p).
Proof.
  intros Hp.
  destruct (album_fs srv cfg link w) as [->|(response & path & _ & ->)];
    [exact Hp|].
  destruct (decide (path = p)) as [->|Hne].
  - rewrite lookup_insert_eq. now eexists.
  - now rewrite lookup_insert_ne.
Qed.

Lemma download_each_keeps_files srv cfg links :
  forall w p,
    is_Some (fs w !! p) ->
    is_Some (fs (final_world (download_each srv cfg links w)) !! p).
Proof.
  induction links as [|link rest IH]; intros w p Hp; simpl.
  - exact Hp.
  - unfold bind.
    pose proof (album_keeps_files srv cfg link w p Hp) as Hone.
    destruct (download_album srv cfg link w) as [[] w1|e w1];
      [now apply IH | exact Hone].
Qed.

Lemma pool_map_keeps_files srv cfg order :
  forall w p,
    is_Some (fs w !! p) ->
    is_Some (fs (final_world (pool_map srv cfg order w)) !! p).
Proof.
  induction order as [|link rest IH]; intros w p Hp; simpl.
  - exact Hp.
  - now apply IH, album_keeps_files.
Qed.

(** X5.  A run never removes a file: every path that holds a file before
    [main] holds one after it, however the run ends. *)
Theorem run_keeps_files srv schedule a w p :
  is_Some (fs w !! p) ->
  is_Some (fs (snd (main srv schedule a w)) !! p).
Proof.
  intros Hp. unfold main.
  destruct (negb (choices_ok a)); [exact Hp|].
  destruct ((parallel_downloads a <? 1) || (MAX_THREADS <? parallel_downloads a));
    [exact Hp|].
  assert (Hfinal : is_Some (fs (final_world (run srv schedule a w)) !! p)).
  { destruct (run_cases srv schedule a w) as (t & _ & Hrun).
    destruct (value_of (get_download_links_for_user srv (config_of_args a)
                          (username a) w)) as [e|[[|link rest]|]];
      rewrite Hrun; try exact Hp.
    - unfold bind at 1.
      assert (Hall : is_Some
                       (fs (final_world
                              (download_all srv schedule a (link :: rest)
                                 (with_events w t))) !! p)).
      { unfold download_all.
        destruct (1 <? parallel_downloads a);
          [apply pool_map_keeps_files | apply download_each_keeps_files];
          exact Hp. }
      destruct (download_all srv schedule a (link :: rest) (with_events w t));
        exact Hall.
    - destruct (1 <=? verbose a)%nat; exact Hp. }
  destruct (run srv schedule a w); exact Hfinal.
Qed.

Lemma run_keeps_files_witness :
  is_Some (fs (snd (main Sample.srv_fine (fun l => l) Sample.args0
                      Sample2.w_stale))
           !! "/music/Ann/One.flac"%string).
Proof.
  apply (run_keeps_files Sample.srv_fine (fun l => l) Sample.args0
           Sample2.w_stale "/music/Ann/One.flac"%string).
  vm_compute. now eexists.
Defined.

(** ** Fetching a file that is missing or has another size *)

Lemma store_fresh srv cfg response path w :
  exists_at srv (fs w) path = false ->
  store srv cfg response path w = save srv cfg response path w.
Proof.
  intros Hnone. unfold store, bind, path_exists.
  fold (exists_at srv (fs w) path). now rewrite Hnone.
Qed.



(** X7.  Without [FORCE], a file in place whose size is not the declared
    length is written again in full: the destination then holds the
    body served, whatever it held.  When [os.makedirs] or [open]
    refuses the destination, their exception is raised instead and the
    file stays as it is. *)
Theorem wrong_size_is_rewritten srv cfg jar url to response d content n w :
  FORCE cfg = false ->
  get_cookies cfg = inr jar ->
  serve_file srv jar url = Some response ->
  status_raises (file_status response) = false ->
  header_get "content-disposition" (file_headers response) = Some d ->
  fs w !! destination cfg url d to = Some content ->
  content_length response = inr n ->
  n <> Z.of_nat (String.length content) ->
  download_file srv cfg (JStr url) (JStr to) w
  = match write_error srv (fs w) (destination cfg url d to) with
    | None =>
        stream_result response
          (mk_world
             (<[destination cfg url d to := file_body response]> (fs w))
             (trace w ++ [HttpGetFile jar url]
              ++ (if (2 <=? VERBOSE cfg)%nat
                  then [TqdmWrite (MsgWrongSize (destination cfg url d to) n
                                     (Z.of_nat (String.length content)))]
                  else [])
              ++ save_events cfg response (destination cfg url d to)))
    | Some e =>
        Raise e
          (with_events w
             ([HttpGetFile jar url]
              ++ (if (2 <=? VERBOSE cfg)%nat
                  then [TqdmWrite (MsgWrongSize (destination cfg url d to) n
                                     (Z.of_nat (String.length content)))]
                  else [])
              ++ (if (2 <=? VERBOSE cfg)%nat
                  then [TqdmWrite (MsgSaving (destination cfg url d to))]
                  else [])))
    end.
Proof.
  intros Hf Hj Hs Hst Hd Hc Hn Hne.
  rewrite (download_file_reaches_store srv cfg jar url to response d w)
    by assumption.
  rewrite store_unforced by exact Hf.
  change (fs (with_events w [HttpGetFile jar url])) with (fs w).
  rewrite (exists_at_file _ _ _ _ Hc), Hn, (size_at_file _ _ _ _ Hc).
  destruct (Z.eqb_spec n (Z.of_nat (String.length content))) as [|_];
    [contradiction|].
  rewrite save_runs.
  change (fs (with_events (with_events w [HttpGetFile jar url]) _))
    with (fs w).
  destruct (write_error srv (fs w) (destination cfg url d to)).
  - now rewrite !with_events_app.
  - simpl. now rewrite <- !app_assoc.
Qed.

(** The refusal is met by a destination without a directory part, as an
    empty output directory and an empty artist give: [os.makedirs('')]
    raises although the file is in place. *)
Example wrong_size_without_directory_part :
  download_file Sample.srv_fine
    (mk_config 0 "" "firefox" "flac" false)
    (JStr Sample.file1) (JStr "")
    (mk_world {[ "One.flac"%string := "stale data"%string ]} [])
  = Raise FileNotFoundError
      (mk_world {[ "One.flac"%string := "stale data"%string ]}
         [HttpGetFile Sample.jar0 Sample.file1]).
Proof. vm_compute. reflexivity. Qed.

Lemma wrong_size_is_rewritten_witness :
  download_file Sample.srv_fine Sample.cfg0 (JStr Sample.file1) (JStr "Ann")
    Sample2.w_stale
  = Ok tt
      (mk_world {[ "/music/Ann/One.flac"%string := "hello"%string ]}
         [ HttpGetFile Sample.jar0 Sample.file1;
           OpenWrite "/music/Ann/One.flac"; TqdmUpdate ]).
Proof.
  rewrite (wrong_size_is_rewritten Sample.srv_fine Sample.cfg0 Sample.jar0
             Sample.file1 "Ann" (Sample.attachment "One.flac" "5" ["he"; "llo"])
             "attachment; filename*=UTF-8''One.flac" "stale data" 5
             Sample2.w_stale);
    [ | try reflexivity .. ].
  - vm_compute. reflexivity.
  - vm_compute. discriminate.
Defined.



(** ** Where a file goes *)

Lemma rev_app_append (s t acc : string) :
  String.rev_app (s ++ t)%string acc = String.rev_app t (String.rev_app s acc).
Proof.
  revert acc. induction s as [|a s IH]; intros acc; simpl; [reflexivity|].
  apply IH.
Qed.

Lemma rev_app_head (t : string) :
  forall a acc1 acc2,
    exists d r1 r2,
      String.rev_app t (String a acc1) = String d r1
      /\ String.rev_app t (String a acc2) = String d r2.
Proof.
  induction t as [|b t IH]; intros a acc1 acc2; simpl.
  - now exists a, acc1, acc2.
  - apply IH.
Qed.

(** The last character of a string that ends with a non-empty [t] is
    the last character of [t]. *)
Lemma ends_with_append (c : ascii) (s t : string) :
  t <> EmptyString -> ends_with c (s ++ t)%string = ends_with c t.
Proof.
  intros Ht. destruct t as [|a t]; [contradiction|].
  unfold ends_with, String.rev. rewrite rev_app_append. simpl.
  destruct (rev_app_head t a (String.rev_app s "") "")
    as (d & r1 & r2 & -> & ->).
  reflexivity.
Qed.

Lemma append_assoc (s t u : string) :
  ((s ++ t) ++ u)%string = (s ++ t ++ u)%string.
Proof.
  induction s as [|a s IH]; [reflexivity|].
  change (String a ((s ++ t) ++ u)%string = String a (s ++ t ++ u)%string).
  now rewrite IH.
Qed.

Lemma append_not_empty (s t : string) :
  s <> EmptyString -> String.eqb (s ++ t)%string "" = false.
Proof. destruct s; [contradiction | reflexivity]. Qed.

(** X9.  With an output directory and an artist that are not empty and do not
    end with a slash, and an artist and a file name that do not start
    with one, the file goes to [OUTPUT_DIR/artist/filename]. *)
Theorem destination_layout cfg url d to :
  OUTPUT_DIR cfg <> EmptyString ->
  ends_with "/" (OUTPUT_DIR cfg) = false ->
  to <> EmptyString ->
  prefixb "/" to = false ->
  ends_with "/" to = false ->
  prefixb "/" (target_filename url d) = false ->
  destination cfg url d to
  = (OUTPUT_DIR cfg ++ "/" ++ to ++ "/" ++ target_filename url d)%string.
Proof.
  intros Hout Hout_end Hto Hto_start Hto_end Hname.
  unfold destination, path_join. simpl fold_left.
  assert (Hfirst : join_step (OUTPUT_DIR cfg) to
                   = (OUTPUT_DIR cfg ++ "/" ++ to)%string).
  { unfold join_step. rewrite Hto_start, Hout_end.
    destruct (OUTPUT_DIR cfg); [contradiction | reflexivity]. }
  rewrite Hfirst. unfold join_step. rewrite Hname.
  rewrite (append_not_empty _ _ Hout). simpl orb. cbv iota.
  change (OUTPUT_DIR cfg ++ "/" ++ to)%string
    with (OUTPUT_DIR cfg ++ String "/" to)%string.
  rewrite ends_with_append by discriminate.
  change (String "/" to) with ("/" ++ to)%string.
  rewrite ends_with_append by exact Hto. rewrite Hto_end.
  now rewrite append_assoc.
Qed.

Lemma destination_layout_witness :
  destination Sample.cfg0 Sample.file1
    "attachment; filename*=UTF-8''Artist%20-%20Track.flac" "Ann"
  = (OUTPUT_DIR Sample.cfg0 ++ "/" ++ "Ann" ++ "/"
     ++ target_filename Sample.file1
          "attachment; filename*=UTF-8''Artist%20-%20Track.flac")%string.
Proof.
  apply (destination_layout Sample.cfg0 Sample.file1
           "attachment; filename*=UTF-8''Artist%20-%20Track.flac" "Ann");
    try reflexivity; discriminate.
Defined.

(** X10.  A file name that starts with a slash once decoded is the whole
    destination: the output directory and the artist are dropped and
    the file is written where the server says.  An artist that starts
    with a slash drops the output directory in the same way. *)
Theorem absolute_name_escapes cfg url d to :
  (prefixb "/" (target_filename url d) = true ->
   destination cfg url d to = target_filename url d)
  /\ (prefixb "/" to = true ->
      destination cfg url d to = join_step to (target_filename url d)).
Proof.
  unfold destination, path_join. simpl fold_left. split.
  - intros H. unfold join_step at 1. now rewrite H.
  - intros H. unfold join_step at 2. now rewrite H.
Qed.

Example absolute_name_is_written :
  download_file Sample2.srv_absolute Sample.cfg0 (JStr Sample.file1)
    (JStr "Ann") Sample.w0
  = Ok tt
      (mk_world {[ "/tmp/one.flac"%string := "abc"%string ]}
         [ HttpGetFile Sample.jar0 Sample.file1;
           OpenWrite "/tmp/one.flac"; TqdmUpdate ]).
Proof. vm_compute. reflexivity. Qed.

(** ** The file name in the header *)

Lemma drop_prefix_some (p s r : string) :
  drop_prefix p s = Some r -> s = (p ++ r)%string.
Proof.
  revert s. induction p as [|a p IH]; intros s H; simpl in *.
  - now inversion H.
  - destruct s as [|b s]; [discriminate H|].
    destruct (Ascii.eqb_spec a b) as [->|]; [|discriminate H].
    now rewrite (IH s H).
Qed.

Lemma drop_prefix_append (p r : string) :
  drop_prefix p (p ++ r)%string = Some r.
Proof.
  induction p as [|a p IH]; simpl; [reflexivity|].
  now rewrite Ascii.eqb_refl.
Qed.

Lemma drop_prefix_none (p s : string) :
  drop_prefix p s = None <-> prefixb p s = false.
Proof.
  revert s. induction p as [|a p IH]; intros s; simpl.
  - split; discriminate.
  - destruct s as [|b s]; [tauto|].
    destruct (Ascii.eqb a b); simpl; [apply IH | tauto].
Qed.

Lemma search_none (lit h : string) :
  search_literal_rest lit h = None <-> substringb lit h = false.
Proof.
  induction h as [|c h IH]; simpl.
  - destruct (drop_prefix lit "") eqn:Hd.
    + split; [discriminate|]. intros H.
      apply orb_false_iff in H as [H _]. apply drop_prefix_none in H. congruence.
    + apply drop_prefix_none in Hd. rewrite Hd. tauto.
  - destruct (drop_prefix lit (String c h)) eqn:Hd.
    + split; [discriminate|]. intros H.
      apply orb_false_iff in H as [H _]. apply drop_prefix_none in H. congruence.
    + apply drop_prefix_none in Hd. rewrite Hd. simpl. exact IH.
Qed.

(** A match is the leftmost occurrence of the literal, and the group is
    the rest of its line. *)
Lemma search_some (lit h g : string) :
  search_literal_rest lit h = Some g ->
  exists pre rest,
    h = (pre ++ lit ++ rest)%string
    /\ g = until_newline rest
    /\ forall pre' rest',
         h = (pre' ++ lit ++ rest')%string ->
         (String.length pre <= String.length pre')%nat.
Proof.
  revert g. induction h as [|c h IH]; intros g; simpl.
  - destruct (drop_prefix lit "") as [r|] eqn:Hd; [|discriminate].
    intros [= <-]. exists EmptyString, r.
    split; [exact (drop_prefix_some _ _ _ Hd)|]. split; [reflexivity|].
    intros; simpl; lia.
  - destruct (drop_prefix lit (String c h)) as [r|] eqn:Hd.
    + intros [= <-]. exists EmptyString, r.
      split; [exact (drop_prefix_some _ _ _ Hd)|]. split; [reflexivity|].
      intros; simpl; lia.
    + intros Hs. destruct (IH g Hs) as (pre & rest & -> & -> & Hleft).
      exists (String c pre), rest. split; [reflexivity|].
      split; [reflexivity|].
      intros pre' rest' Heq. destruct pre' as [|c' pre'].
      * pose proof (drop_prefix_append lit rest') as Hp.
        change ("" ++ lit ++ rest')%string with (lit ++ rest')%string in Heq.
        rewrite <- Heq in Hp. congruence.
      * change (String c' pre' ++ lit ++ rest')%string
          with (String c' (pre' ++ lit ++ rest')%string) in Heq.
        injection Heq as _ Heq. simpl. apply le_n_S.
        now apply (Hleft pre' rest').
Qed.

(** X11.  The name sent by the server is used exactly when the header holds
    [filename*=UTF-8'']: it is then what follows the leftmost occurrence
    up to the end of the line, percent-decoded; otherwise the name is
    the last segment of the URL. *)
Theorem filename_from_header url d :
  (substringb "filename*=UTF-8''" d = false ->
   target_filename url d = List.last (split "/" url) EmptyString)
  /\ (substringb "filename*=UTF-8''" d = true ->
      exists pre rest,
        d = (pre ++ "filename*=UTF-8''" ++ rest)%string
        /\ (forall pre' rest',
              d = (pre' ++ "filename*=UTF-8''" ++ rest')%string ->
              (String.length pre <= String.length pre')%nat)
        /\ target_filename url d = unquote (until_newline rest)).
Proof.
  unfold target_filename, FILENAME_REGEX_search. split.
  - intros H. apply search_none in H. now rewrite H.
  - intros H.
    destruct (search_literal_rest "filename*=UTF-8''" d) as [g|] eqn:Hs.
    + destruct (search_some _ _ _ Hs) as (pre & rest & Hd & -> & Hleft).
      now exists pre, rest.
    + apply search_none in Hs. congruence.
Qed.

(** ** The progress bar *)

Lemma updates_app (t1 t2 : list event) :
  updates (t1 ++ t2) = (updates t1 + updates t2)%nat.
Proof. unfold updates. now rewrite List.filter_app, length_app. Qed.

Lemma steady_ret {A} (a : A) : steady (ret a).
Proof. intros w. reflexivity. Qed.

Lemma steady_raise {A} (e : exn) : steady (@raise A e).
Proof. intros w. reflexivity. Qed.

Lemma steady_lift {A} (r : exn + A) : steady (lift r).
Proof. destruct r; [apply steady_raise | apply steady_ret]. Qed.

Lemma steady_emit (e : event) : is_update e = false -> steady (emit e).
Proof.
  intros He w. unfold emit. simpl. rewrite updates_app.
  unfold updates at 2. simpl. rewrite He. simpl. lia.
Qed.

Lemma steady_when (b : bool) (m : M unit) : steady m -> steady (when b m).
Proof. destruct b; [trivial | intros _; apply steady_ret]. Qed.

Lemma steady_bind {A B} (m : M A) (k : A -> M B) :
  steady m -> (forall a, steady (k a)) -> steady (bind m k).
Proof.
  intros Hm Hk w. unfold bind. specialize (Hm w).
  destruct (m w) as [a w1|e w1]; simpl in *; [|exact Hm].
  now rewrite Hk.
Qed.

Lemma steady_path_exists (h : host) (path : string) :
  steady (path_exists h path).
Proof. intros w. reflexivity. Qed.

Lemma steady_stat_size (h : host) (path : string) : steady (stat_size h path).
Proof.
  intros w. unfold stat_size.
  destruct (fs w !! path); [reflexivity|].
  now destruct (is_dir h (fs w) path).
Qed.

Lemma steady_makedirs (path : string) : steady (makedirs path).
Proof.
  intros w. unfold makedirs. now destruct (makedirs_error (fs w) path).
Qed.

Lemma steady_write_file (h : host) (path content : string) :
  steady (write_file h path content).
Proof.
  intros w. unfold write_file.
  destruct (open_error h (fs w) path); [reflexivity|].
  simpl. rewrite updates_app. unfold updates at 2. simpl. lia.
Qed.

Create HintDb steady_db.
#[export] Hint Resolve steady_ret steady_raise steady_lift steady_when
  steady_path_exists steady_stat_size steady_makedirs steady_write_file
  : steady_db.
#[export] Hint Extern 1 (steady (emit _)) =>
  (apply steady_emit; reflexivity) : steady_db.

Ltac steady_step :=
  match goal with
  | |- steady (bind _ _) => apply steady_bind; [ | intros ]
  | |- steady (match ?x with _ => _ end) => destruct x
  | |- steady _ => solve [ auto with steady_db ]
  end.

Lemma steady_get_page srv cfg url : steady (get_page srv cfg url).
Proof. unfold get_page. repeat steady_step. Qed.

Lemma ticks_raise {A} (e : exn) : ticks (@raise A e).
Proof. intros w. unfold raise. simpl. lia. Qed.

Lemma ticks_update : ticks (emit TqdmUpdate).
Proof.
  intros w. unfold emit. simpl. now rewrite updates_app.
Qed.

Lemma ticks_bind {A B} (m : M A) (k : A -> M B) :
  steady m -> (forall a, ticks (k a)) -> ticks (bind m k).
Proof.
  intros Hm Hk w. unfold bind. specialize (Hm w).
  destruct (m w) as [a w1|e w1]; simpl in *; [|lia].
  now rewrite Hk, Hm.
Qed.

Ltac ticks_step :=
  match goal with
  | |- ticks (bind _ _) =>
      apply ticks_bind;
      [ first [ apply steady_get_page | solve [ repeat steady_step ] ]
      | intros ]
  | |- ticks (match ?x with _ => _ end) => destruct x
  | |- ticks (emit TqdmUpdate) => apply ticks_update
  | |- ticks (raise _) => apply ticks_raise
  end.

Lemma ticks_save srv cfg response path : ticks (save srv cfg response path).
Proof. unfold save. repeat ticks_step. Qed.

Lemma ticks_store srv cfg response path : ticks (store srv cfg response path).
Proof. unfold store. repeat first [ apply ticks_save | ticks_step ]. Qed.

Lemma ticks_download_file srv cfg url to :
  ticks (download_file srv cfg url to).
Proof.
  unfold download_file. repeat first [ apply ticks_store | ticks_step ].
Qed.

Lemma ticks_download_album srv cfg link :
  ticks (download_album srv cfg link).
Proof.
  unfold download_album.
  repeat first [ apply ticks_download_file | ticks_step ].
Qed.

(** X12.  Every call of [download_album] advances the progress bar exactly once
    when it returns, whether it skipped, kept or wrote the file, and not
    at all when it raises. *)
Theorem album_advances_progress_once srv cfg link w :
  updates (trace (final_world (download_album srv cfg link w)))
  = (updates (trace w)
     + match download_album srv cfg link w with
       | Ok _ _ => 1
       | Raise _ _ => 0
       end)%nat.
Proof. apply ticks_download_album. Qed.

Lemma returned_bound srv cfg order :
  forall w, (returned srv cfg order w <= length order)%nat.
Proof.
  induction order as [|link rest IH]; intros w; simpl; [lia|].
  specialize (IH (final_world (download_album srv cfg link w))).
  destruct (download_album srv cfg link w); simpl in *; lia.
Qed.

(** X13.  When the sequential loop returns the progress bar has advanced once
    per link; the pool advances it once per call that returned, so at
    most once per link. *)
Theorem loops_advance_progress srv cfg links w :
  (forall w',
     download_each srv cfg links w = Ok tt w' ->
     updates (trace w') = (updates (trace w) + length links)%nat)
  /\ updates (trace (final_world (pool_map srv cfg links w)))
     = (updates (trace w) + returned srv cfg links w)%nat
  /\ (returned srv cfg links w <= length links)%nat.
Proof.
  split; [|split].
  - revert w. induction links as [|link rest IH]; intros w w' Hrun;
      simpl in Hrun.
    + unfold ret in Hrun. inversion Hrun; subst. simpl. lia.
    + unfold bind in Hrun.
      pose proof (ticks_download_album srv cfg link w) as Hone.
      destruct (download_album srv cfg link w) as [[] w1|e w1];
        [|discriminate Hrun].
      simpl in Hone. rewrite (IH w1 w' Hrun), Hone. simpl. lia.
  - revert w. induction links as [|link rest IH]; intros w; simpl; [lia|].
    rewrite IH, (ticks_download_album srv cfg link w). lia.
  - apply returned_bound.
Qed.

Example loops_advance_progress_sample :
  updates (trace (final_world
                    (pool_map Sample.srv_404 Sample.cfg0
                       [JStr Sample.album1; JStr Sample.album2] Sample.w0)))
  = 1%nat.
Proof. reflexivity. Qed.

(** ** The loop and the pool *)

Lemma pool_map_app srv cfg order1 order2 :
  forall w,
    pool_map srv cfg (order1 ++ order2) w
    = pool_map srv cfg order2 (final_world (pool_map srv cfg order1 w)).
Proof.
  induction order1 as [|link rest IH]; intros w; simpl; [reflexivity|].
  apply IH.
Qed.

(** X14.  When no album raises, the pool running the calls in list order ends
    in the world the sequential loop ends in; when an album raises, the
    loop stops in the world of the exception and the pool goes on from
    it with the remaining links. *)
Theorem loop_and_pool_agree srv cfg links w :
  (forall w',
     download_each srv cfg links w = Ok tt w' ->
     pool_map srv cfg links w = Ok tt w')
  /\ (forall before link rest w1 e w2,
        links = before ++ link :: rest ->
        download_each srv cfg before w = Ok tt w1 ->
        download_album srv cfg link w1 = Raise e w2 ->
        download_each srv cfg links w = Raise e w2
        /\ pool_map srv cfg links w = pool_map srv cfg rest w2).
Proof.
  assert (Hagree : forall l w0 w',
             download_each srv cfg l w0 = Ok tt w' ->
             pool_map srv cfg l w0 = Ok tt w').
  { induction l as [|first l IH]; intros w0 w' Hrun; simpl in *.
    - exact Hrun.
    - unfold bind in Hrun.
      destruct (download_album srv cfg first w0) as [[] w1|e w1];
        [now apply IH | discriminate Hrun]. }
  split; [apply Hagree|].
  intros before link rest w1 e w2 -> Hbefore Hraise. split.
  - rewrite (download_each_app _ _ _ _ _ _ Hbefore). simpl.
    unfold bind. now rewrite Hraise.
  - rewrite pool_map_app, (Hagree _ _ _ Hbefore). simpl.
    now rewrite Hraise.
Qed.

(** ** The enumeration *)

(** X15.  The enumeration neither reads nor writes a file: from any two worlds
    it returns the same value and adds the same events, and it leaves
    the file system as it was. *)
Theorem enumeration_ignores_files srv cfg user w1 w2 :
  value_of (get_download_links_for_user srv cfg user w1)
  = value_of (get_download_links_for_user srv cfg user w2)
  /\ new_events (get_download_links_for_user srv cfg user) w1
     = new_events (get_download_links_for_user srv cfg user) w2
  /\ fs (final_world (get_download_links_for_user srv cfg user w1)) = fs w1
  /\ forall p,
       ~ In (OpenWrite p)
           (new_events (get_download_links_for_user srv cfg user) w1).
Proof.
  destruct (fileless_get_download_links_for_user srv cfg user)
    as (v & t & Ht & Hm).
  unfold new_events. rewrite !Hm, !value_of_pack, !final_world_pack. simpl.
  repeat split. now apply writes_nothing_In.
Qed.

(** [main] prints its announcements, then runs the enumeration. *)
Lemma run_preamble_runs (a : args) (k : M Z) w :
  bind (when (1 <=? verbose a)%nat (emit (Print (MsgArgs a))))
    (fun _ => bind (when (force a) (emit (Print MsgForceFlag)))
       (fun _ => k)) w
  = k (with_events w
         ((if (1 <=? verbose a)%nat then [Print (MsgArgs a)] else [])
          ++ (if force a then [Print MsgForceFlag] else []))).
Proof.
  unfold bind, when, emit, ret, with_events.
  destruct (1 <=? verbose a)%nat, (force a); simpl;
    rewrite <- ?app_assoc, ?app_nil_r, ?world_eta; reflexivity.
Qed.

(** X16.  An error status on the continuation request aborts the enumeration
    with [HTTPError]: the URLs embedded in the profile page are dropped
    with it, and the run ends with a traceback right after that request:
    no album page and no file is asked for, nothing more is printed and
    every file is as it was. *)
Theorem continuation_error_aborts
    srv schedule a jar data ui body response w :
  choices_ok a = true ->
  1 <= parallel_downloads a <= MAX_THREADS ->
  get_cookies (config_of_args a) = inr jar ->
  serve_page srv jar (USER_URL (username a)) = Some (Blob data) ->
  profile_fields data ui ->
  generate_collection_post_payload ui = inr body ->
  serve_post srv jar COLLECTION_POST_URL (JObj body) = Some response ->
  status_raises (post_status response) = true ->
  get_download_links_for_user srv (config_of_args a) (username a) w
  = Raise HTTPError
      (with_events w [ Print (MsgRetrieving (username a));
                       HttpGetPage jar (USER_URL (username a));
                       HttpPost jar COLLECTION_POST_URL (JObj body) ])
  /\ main srv schedule a w
     = (EXIT_TRACEBACK,
        with_events w
          ((if (1 <=? verbose a)%nat then [Print (MsgArgs a)] else [])
           ++ (if force a then [Print MsgForceFlag] else [])
           ++ [ Print (MsgRetrieving (username a));
                HttpGetPage jar (USER_URL (username a));
                HttpPost jar COLLECTION_POST_URL (JObj body) ])).
Proof.
  intros Hc Hrange Hj Hpage
         (Hcount & (fd & Hfd & Hid) & (cd & urls & Hcd & Htok & Hu & Hv))
         Hp Hs Hst.
  assert (Henum : forall w0,
             get_download_links_for_user srv (config_of_args a) (username a) w0
             = Raise HTTPError
                 (with_events w0 [ Print (MsgRetrieving (username a));
                                   HttpGetPage jar (USER_URL (username a));
                                   HttpPost jar COLLECTION_POST_URL (JObj body) ])).
  { intros w0.
    unfold get_download_links_for_user, get_page, bind, lift, emit.
    rewrite Hj; simpl. rewrite Hpage; simpl.
    rewrite Hcount; simpl. rewrite Hfd; simpl. rewrite Hid; simpl.
    rewrite Hcd; simpl. rewrite Htok; simpl. rewrite ?Hcd; simpl.
    rewrite Hu; simpl. rewrite Hv; simpl.
    rewrite user_info_eta.
    unfold get_user_collection, bind, lift, emit.
    rewrite Hp, Hj; simpl. rewrite Hs, Hst; simpl.
    unfold with_events. now rewrite <- !app_assoc. }
  split; [apply Henum|].
  rewrite (main_of_run _ _ _ _ Hc Hrange).
  unfold run. simpl VERBOSE. simpl FORCE.
  match goal with
  | |- context [ bind (when _ _) (fun _ => bind (when _ _) (fun _ => ?k)) ] =>
      rewrite (run_preamble_runs a k w)
  end.
  unfold bind at 1. rewrite Henum.
  now rewrite with_events_app, <- app_assoc.
Qed.

Lemma continuation_error_aborts_witness :
  get_download_links_for_user Sample2.srv_post_503
    (config_of_args Sample.args0) (username Sample.args0) Sample.w0
  = Raise HTTPError
      (with_events Sample.w0
         [ Print (MsgRetrieving (username Sample.args0));
           HttpGetPage Sample.jar0 (USER_URL (username Sample.args0));
           HttpPost Sample.jar0 COLLECTION_POST_URL
             (JObj [ ("fan_id"%string, JNum 42); ("count"%string, JNum 1);
                     ("older_than_token"%string, JStr "1700000000:1:a::") ]) ])
  /\ main Sample2.srv_post_503 (fun l => l) Sample.args0 Sample.w0
     = (EXIT_TRACEBACK,
        mk_world ∅
          [ Print (MsgRetrieving "fan");
            HttpGetPage Sample.jar0 (USER_URL "fan");
            HttpPost Sample.jar0 COLLECTION_POST_URL
              (JObj [ ("fan_id"%string, JNum 42); ("count"%string, JNum 1);
                      ("older_than_token"%string, JStr "1700000000:1:a::") ]) ]).
Proof.
  apply (continuation_error_aborts Sample2.srv_post_503 (fun l => l)
           Sample.args0 Sample.jar0
           (Sample.profile 2 [("a1"%string, JStr Sample.album1)])
           (mk_user_info (JNum 2) (JNum 42) (JStr "1700000000:1:a::")
              [JStr Sample.album1])
           _ (mk_post_response 503 None) Sample.w0).
  - reflexivity.
  - unfold MAX_THREADS; simpl; lia.
  - reflexivity.
  - reflexivity.
  - unfold profile_fields; simpl. split; [reflexivity|]. split.
    + eexists; split; reflexivity.
    + eexists _, _; repeat split; reflexivity.
  - reflexivity.
  - reflexivity.
  - reflexivity.
Defined.

(** ** Albums *)

(** X17.  An album page without the page-data element is reported once on the
    progress bar, which is advanced; the call returns and no file is
    asked for or touched. *)
Theorem missing_pagedata_skips srv cfg jar u w :
  get_cookies cfg = inr jar ->
  serve_page srv jar u = Some NoDiv ->
  download_album srv cfg (JStr u) w
  = Ok tt (with_events w [ HttpGetPage jar u;
                           TqdmWrite (MsgNoPagedataAlbum (JStr u));
                           TqdmUpdate ]).
Proof.
  intros Hj Hp. unfold download_album, get_page, bind, lift, emit.
  rewrite Hj; simpl. rewrite Hp; simpl.
  unfold with_events. now rewrite <- !app_assoc.
Qed.

Lemma missing_pagedata_skips_witness :
  download_album Sample2.srv_no_pagedata Sample.cfg0 (JStr Sample.album1)
    Sample.w0
  = Ok tt (with_events Sample.w0
             [ HttpGetPage Sample.jar0 Sample.album1;
               TqdmWrite (MsgNoPagedataAlbum (JStr Sample.album1));
               TqdmUpdate ]).
Proof.
  apply (missing_pagedata_skips Sample2.srv_no_pagedata Sample.cfg0
           Sample.jar0 Sample.album1 Sample.w0); reflexivity.
Defined.

(** An album that offers the configured format is fetched from the URL
    of that format's descriptor into the directory named after the
    artist of its first download item. *)
Lemma album_resolves srv cfg jar u data artist album kvs descr f w :
  get_cookies cfg = inr jar ->
  serve_page srv jar u = Some (Blob data) ->
  first_item_field data "artist" = inr artist ->
  first_item_field data "title" = inr album ->
  first_item_field data "downloads" = inr (JObj kvs) ->
  dict_get (FORMAT cfg) (dict_of_pairs kvs) = Some descr ->
  getitem descr "url" = inr f ->
  download_album srv cfg (JStr u) w
  = download_file srv cfg f artist (with_events w [HttpGetPage jar u]).
Proof.
  intros Hj Hp Ha Ht Hd Hk Hu.
  unfold download_album, get_page, bind, lift, emit.
  rewrite Hj; simpl. rewrite Hp; simpl. rewrite Ha, Ht, Hd; simpl.
  rewrite Hk; simpl. now rewrite Hu.
Qed.


